(** * JobFunnel: the Indeed scraper (jobfunnel/backend/scrapers/indeed.py)

    A shallow embedding of [BaseIndeedScraper] and of its two locale
    subclasses, and the properties of the scrape pass: radius quantization,
    page counting, page fetching, per-listing extraction, date fix-up and
    aggregation by [key_id]. *)

From Stdlib Require Import ZArith Lia Ascii String List.
From stdpp Require Import base tactics option list gmap strings pretty.

Local Open Scope Z_scope.

(** ** Python values the scraper relies on *)

(** The exceptions that the scraper raises or catches. *)
Inductive exn : Type :=
  | AttributeError
  | IndexError
  | ValueError
  | TypeError
  | ZeroDivisionError
  | OverflowError
  | NotImplementedError.

#[global] Instance exn_eq_dec : EqDecision exn.
Proof. solve_decision. Defined.

(** A computation either returns or raises. *)
Inductive result (A : Type) : Type :=
  | Ok (a : A)
  | Raise (e : exn).
Arguments Ok {A} a.
Arguments Raise {A} e.

Definition rbind {A B : Type} (c : result A) (k : A -> result B) : result B :=
  match c with
  | Ok a => k a
  | Raise e => Raise e
  end.

Notation "'let!' x ':=' c 'in' k" := (rbind c (fun x => k))
  (at level 10, x name, c at level 200, k at level 200).

(** [None.attr] raises [AttributeError]; this is how every field extractor
    of the scraper fails when [soup.find] returns [None]. *)
Definition attr_of_found {A : Type} (found : option A) : result A :=
  match found with
  | Some a => Ok a
  | None => Raise AttributeError
  end.

(** [l[0]]. *)
Definition item0 {A : Type} (l : list A) : result A :=
  match l with
  | a :: _ => Ok a
  | [] => Raise IndexError
  end.

(** ** RadiusQuantizer: [BaseIndeedScraper.convert_radius] *)

Definition convert_radius (radius : Z) : Z :=
  if radius <? 5 then 0
  else if (5 <=? radius) && (radius <? 10) then 5
  else if (10 <=? radius) && (radius <? 15) then 10
  else if (15 <=? radius) && (radius <? 25) then 15
  else if (25 <=? radius) && (radius <? 50) then 25
  else if (50 <=? radius) && (radius <? 100) then 50
  else if radius >=? 100 then 100
  else radius.

(** The buckets as the specification lists them: a lower bound, an upper
    bound ([None] for the unbounded last interval) and the bucket value. *)
Definition radius_buckets : list (Z * option Z * Z) :=
  [ (0, Some 5, 0); (5, Some 10, 5); (10, Some 15, 10); (15, Some 25, 15);
    (25, Some 50, 25); (50, Some 100, 50); (100, None, 100) ].

(** [r] lies in the half-open interval from [lo] to [hi]. *)
Definition in_interval (lo : Z) (hi : option Z) (r : Z) : Prop :=
  lo <= r /\ match hi with Some h => r < h | None => True end.

Definition in_intervalb (lo : Z) (hi : option Z) (r : Z) : bool :=
  (lo <=? r) && match hi with Some h => r <? h | None => true end.

(** The bucket of a radius read off the specification's table: the value
    of the first interval that holds it. *)
Definition radius_bucket (r : Z) : option Z :=
  match find (fun '(lo, hi, _) => in_intervalb lo hi r) radius_buckets with
  | Some (_, _, b) => Some b
  | None => None
  end.

(** ** Python arithmetic: [int / int] and [math.ceil] *)

(** A finite binary64 value [fmant * 2 ^ fexp]. *)
Record float : Type := mkFloat { fmant : Z; fexp : Z }.

(** Nearest integer to [a / b] for [0 <= a], [0 < b], ties to even. *)
Definition round_half_even (a b : Z) : Z :=
  let q := a / b in
  let r := a mod b in
  if 2 * r <? b then q
  else if b <? 2 * r then q + 1
  else if Z.even q then q else q + 1.

(** The binary exponent of the quotient of two positive integers:
    [2 ^ x <= a / b < 2 ^ (x + 1)]. *)
Definition quotient_exponent (a b : Z) : Z :=
  let d := Z.log2 a - Z.log2 b in
  if 0 <=? d
  then (if b * 2 ^ d <=? a then d else d - 1)
  else (if b <=? a * 2 ^ (- d) then d else d - 1).

(** [a / b] on Python integers: the binary64 value nearest to the exact
    quotient (round half to even, 53 significant bits, exponents down to
    the subnormal range), [ZeroDivisionError] for a zero divisor and
    [OverflowError] when the result exceeds the binary64 range. *)
Definition true_divide (a b : Z) : result float :=
  if b =? 0 then Raise ZeroDivisionError
  else if a =? 0 then Ok (mkFloat 0 0)
  else
    let s := Z.sgn a * Z.sgn b in
    let a' := Z.abs a in
    let b' := Z.abs b in
    let e := Z.max (quotient_exponent a' b' - 52) (-1074) in
    let m := if 0 <=? e then round_half_even a' (b' * 2 ^ e)
             else round_half_even (a' * 2 ^ (- e)) b' in
    if (971 <? e) || ((e =? 971) && (m =? 2 ^ 53)) then Raise OverflowError
    else Ok (mkFloat (s * m) e).

(** [math.ceil] of a finite float: an exact integer. *)
Definition ceil (x : float) : Z :=
  if 0 <=? fexp x then fmant x * 2 ^ fexp x
  else - ((- fmant x) / 2 ^ (- fexp x)).

(** The exact ceiling of [n / d], [0 < d]. *)
Definition ceil_div (n d : Z) : Z := - ((- n) / d).

(** ** PageLocator: the arithmetic of [get_num_pages_to_scrape] *)

(** [self.max_results_per_page], set to 50 in [__init__] and never
    assigned again. *)
Definition max_results_per_page : Z := 50.

(** Lines 249-255 of [get_num_pages_to_scrape], from the result count
    [num_res] that lines 247-248 read off the first page. *)
Definition num_pages_of_count (num_res max_pages : Z) : result Z :=
  let! q := true_divide num_res max_results_per_page in
  let number_of_pages := ceil q in
  if max_pages =? 0 then Ok number_of_pages
  else if number_of_pages <? max_pages then Ok number_of_pages
  else Ok max_pages.

(** ** Python strings

    A text is a string of code points below 256, one per [ascii]. *)

(** The code points below 256 for which [str.isspace] holds, which are
    those that [str.strip] removes: the ASCII white space, the separators
    28 to 31, NEL (133) and the no-break space (160). *)
Definition is_whitespace (c : ascii) : bool :=
  match c with
  | "009" | "010" | "011" | "012" | "013"
  | "028" | "029" | "030" | "031" | " " | "133" | "160" => true
  | _ => false
  end%char.

Fixpoint lstrip (s : string) : string :=
  match s with
  | String c s' => if is_whitespace c then lstrip s' else s
  | EmptyString => EmptyString
  end.

(** [s.strip()]. *)
Definition strip (s : string) : string :=
  String.rev (lstrip (String.rev (lstrip s))).

(** [s.replace(old, new)] for a one-character [old]. *)
Fixpoint replace_char (old : ascii) (new : string) (s : string) : string :=
  match s with
  | EmptyString => EmptyString
  | String c s' =>
      if Ascii.eqb c old then new +:+ replace_char old new s'
      else String c (replace_char old new s')
  end.

(** [sep.join(l)]. *)
Definition join (sep : string) (l : list string) : string :=
  String.concat sep l.

(** [str(x)] for an integer and for a boolean converted by [int]. *)
Definition str_of_int (x : Z) : string := pretty x.
Definition int_of_bool (b : bool) : Z := if b then 1 else 0.

(** The decimal digits below 256, which [\d] matches and [int] reads: 0 to
    9 and no other. *)
Definition is_digit (c : ascii) : bool :=
  let n := nat_of_ascii c in (48 <=? n)%nat && (n <=? 57)%nat.

Definition is_alnum (c : ascii) : bool :=
  let n := nat_of_ascii c in
  ((48 <=? n)%nat && (n <=? 57)%nat)
  || ((65 <=? n)%nat && (n <=? 90)%nat)
  || ((97 <=? n)%nat && (n <=? 122)%nat).

(** The longest prefix of characters satisfying [p], and the rest. *)
Fixpoint span (p : ascii -> bool) (s : string) : string * string :=
  match s with
  | String c s' =>
      if p c then let (pre, rest) := span p s' in (String c pre, rest)
      else (EmptyString, s)
  | EmptyString => (EmptyString, EmptyString)
  end.

Fixpoint strip_prefix (pre s : string) : option string :=
  match pre, s with
  | EmptyString, _ => Some s
  | String a pre', String b s' =>
      if Ascii.eqb a b then strip_prefix pre' s' else None
  | String _ _, EmptyString => None
  end.

(** The value of a string of decimal digits, after the digits read into
    [acc]. *)
Fixpoint int_of_digits (acc : Z) (s : string) : result Z :=
  match s with
  | EmptyString => Ok acc
  | String c s' =>
      if is_digit c
      then int_of_digits (10 * acc + Z.of_nat (nat_of_ascii c - 48)) s'
      else Raise ValueError
  end.

(** [sys.get_int_max_str_digits()]: CPython 3.11 and later convert no
    string of more digits. *)
Definition int_max_str_digits : nat := 4300.

(** [int(s)] for a string of decimal digits, as [\d+] yields them. *)
Definition int (s : string) : result Z :=
  match s with
  | EmptyString => Raise ValueError
  | _ =>
      if (int_max_str_digits <? String.length s)%nat then Raise ValueError
      else int_of_digits 0 s
  end.

(** *** The two regular expressions of the scraper

    A pattern is given by its match at the start of a string: the text of
    its group and the length of the whole match. [findall] then collects the
    groups of the leftmost non-overlapping matches, as [re.findall] does for
    a pattern with one group. *)
Fixpoint findall_from (match_here : string -> option (string * nat))
    (skip : nat) (s : string) : list string :=
  match s with
  | EmptyString => []
  | String _ s' =>
      match skip with
      | S k => findall_from match_here k s'
      | O =>
          match match_here s with
          | Some (group, len) => group :: findall_from match_here (len - 1) s'
          | None => findall_from match_here 0 s'
          end
      end
  end.

Definition findall (match_here : string -> option (string * nat))
    (s : string) : list string :=
  findall_from match_here 0 s.

(** The result-count pattern: [f], a space, a group of one or more
    digits, and a space. *)
Definition count_regex (s : string) : option (string * nat) :=
  match strip_prefix "f " s with
  | Some rest =>
      match span is_digit rest with
      | (String d ds, String " " _) =>
          Some (String d ds, (3 + String.length (String d ds))%nat)
      | _ => None
      end
  | None => None
  end.

Definition dquote : ascii := "034"%char.

(** The id pattern: [id=], a double quote, [sj_], a group of any number of
    ASCII letters and digits, and a double quote. *)
Definition id_regex (s : string) : option (string * nat) :=
  match strip_prefix ("id=" +:+ String dquote "sj_") s with
  | Some rest =>
      match span is_alnum rest with
      | (group, String c _) =>
          if Ascii.eqb c dquote
          then Some (group, (8 + String.length group)%nat)
          else None
      | _ => None
      end
  | None => None
  end.

(** ** Data model *)

(** The members of [jobfunnel.backend.localization.Locale] that the
    scraper classes name. *)
Inductive Locale : Type := CANADA_ENGLISH | USA_ENGLISH.

(** Modelled from the spec: [jobfunnel.backend.JobStatus], an enumeration
    whose initial value is [NEW]; its other members are not named by the
    scraper and stand behind [OTHER_STATUS]. *)
Inductive JobStatus : Type := NEW | OTHER_STATUS (name : string).

(** [datetime.datetime(year, month, day)]. *)
Record datetime : Type := mkDatetime { year : Z; month : Z; day : Z }.

(** The values [Job.post_date] takes during a scrape: [None], the relative
    date text of the listing, or an absolute date. *)
Inductive PostDate : Type :=
  | NoDate
  | RelativeDate (text : string)
  | AbsoluteDate (d : datetime).

Definition epoch : datetime := mkDatetime 1970 1 1.

(** A listing fragment ([div] with [data-tn-component=organicJob]), given by
    what [find] returns on it for each selector the scraper uses: [None], or
    the part of the element found that the scraper reads ([.text], [str()],
    or the [.text] of the cells [find_all] returns inside it). *)
Record JobSoup : Type := mkJobSoup {
  find_jobTitle : option string;         (* a, data-tn-element=jobTitle: .text *)
  find_company : option string;          (* span.company: .text *)
  find_location : option string;         (* span.location: .text *)
  find_jobCardShelf : option (list string);
                       (* table.jobCardShelfContainer: .text of each
                          td.jobCardShelfItem *)
  find_date : option string;             (* span.date: .text *)
  find_save_job_link : option string;    (* a.sl.resultLink.save-job-link: str() *)
}.

(** A parsed page, given in the same way. *)
Record PageSoup : Type := mkPageSoup {
  find_searchCountPages : option (list string);   (* id=searchCountPages: .contents *)
  find_all_organicJob : list JobSoup;
  find_jobDescriptionText : option string;        (* id=jobDescriptionText: .text *)
}.

(** [jobfunnel.backend.Job], with the attributes that [scrape] passes to its
    constructor. *)
Record Job : Type := mkJob {
  title : string;
  company : string;
  location : string;
  description : string;
  key_id : string;
  url : string;
  locale : Locale;
  query : string;
  status : JobStatus;
  provider : string;
  short_description : option string;
  post_date : PostDate;
  raw : JobSoup;
  tags : list string;
}.

Definition set_post_date (job : Job) (d : PostDate) : Job :=
  mkJob (title job) (company job) (location job) (description job)
    (key_id job) (url job) (locale job) (query job) (status job)
    (provider job) (short_description job) d (raw job) (tags job).

Definition set_short_desc (job : Job) (text : option string) : Job :=
  mkJob (title job) (company job) (location job) (description job)
    (key_id job) (url job) (locale job) (query job) (status job)
    (provider job) text (post_date job) (raw job) (tags job).

Definition set_description (job : Job) (text : string) : Job :=
  mkJob (title job) (company job) (location job) text
    (key_id job) (url job) (locale job) (query job) (status job)
    (provider job) (short_description job) (post_date job) (raw job)
    (tags job).

(** The attributes of [jobfunnel.config.SearchTerms] that the scraper
    reads. *)
Record SearchTerms : Type := mkSearchTerms {
  keywords : list string;
  city : string;
  province : string;
  state : string;
  radius : Z;
  region_radius : Z;                (* search_terms.region.radius *)
  return_similar_results : bool;
}.

(** The two concrete scraper classes. *)
Inductive ScraperClass : Type := IndeedScraperCAEng | IndeedScraperUSAEng.

(** A scraper instance after [__init__]: its class, which fixes the locale,
    and its search terms, from which [__init__] sets [query]. *)
Record Scraper : Type := mkScraper {
  scraper_class : ScraperClass;
  search_terms : SearchTerms;
}.

(** [self.locale], a property of each subclass. *)
Definition self_locale (self : Scraper) : Locale :=
  match scraper_class self with
  | IndeedScraperCAEng => CANADA_ENGLISH
  | IndeedScraperUSAEng => USA_ENGLISH
  end.

(** [self.query], set in [__init__]. *)
Definition self_query (self : Scraper) : string :=
  join "+" (keywords (search_terms self)).

(** ** Collaborators

    What the scraper receives from outside [indeed.py]: the session, the
    markup parser, the worker pool, and the parts of the package that it
    calls. *)
Class World : Type := mkWorld {
  (** [self.session.get(url).text] *)
  session_get : string -> string;
  (** [BeautifulSoup(text, self.bs4_parser)] *)
  BeautifulSoup : string -> PageSoup;
  (** [jobfunnel.backend.localization.get_domain_from_locale] *)
  get_domain_from_locale : Locale -> string;
  (** Modelled from the spec: the DateNormalizer behind
      [Job.set_post_date_from_relative_date], which converts the relative
      date text held in [post_date] into an absolute date, or raises. *)
  relative_date : PostDate -> result datetime;
  (** [Job.clean_strings] *)
  clean_strings : Job -> Job;
  (** The order in which the worker pool completes the tasks submitted to
      it; every submitted task runs once. *)
  completion_order : list Z -> list Z;
  completion_order_perm : forall tasks, completion_order tasks ≡ₚ tasks;
}.

(** Modelled from the spec: [Job.set_post_date_from_relative_date] of
    [jobfunnel.backend], a date fix-up that changes [post_date] and nothing
    else. *)
Definition set_post_date_from_relative_date `{World} (job : Job)
    : result Job :=
  let! d := relative_date (post_date job) in
  Ok (set_post_date job (AbsoluteDate d)).

(** ** Effects: requests sent and records logged, in order *)

Inductive Level : Type := INFO | WARNING | ERROR.

Inductive event : Type :=
  | Request (url : string)
  | Log (lvl : Level) (msg : string).

#[global] Instance Level_eq_dec : EqDecision Level.
Proof. solve_decision. Defined.

#[global] Instance event_eq_dec : EqDecision event.
Proof. solve_decision. Defined.

(** A scraper method returns a value and the events it caused, or raises. *)
Definition M (A : Type) : Type := result (A * list event).

Definition ret {A : Type} (a : A) : M A := Ok (a, []).

Definition bind {A B : Type} (c : M A) (k : A -> M B) : M B :=
  match c with
  | Ok (a, t) =>
      match k a with
      | Ok (b, t') => Ok (b, t ++ t')
      | Raise e => Raise e
      end
  | Raise e => Raise e
  end.

Definition raise {A : Type} (e : exn) : M A := Raise e.

Definition lift {A : Type} (c : result A) : M A :=
  match c with
  | Ok a => Ok (a, [])
  | Raise e => Raise e
  end.

Definition logger (lvl : Level) (msg : string) : M unit :=
  Ok (tt, [Log lvl msg]).

Definition get `{World} (url : string) : M string :=
  Ok (session_get url, [Request url]).

Notation "'let*' x ':=' c 'in' k" := (bind c (fun x => k))
  (at level 10, x name, c at level 200, k at level 200).

Definition requests (t : list event) : list string :=
  omap (fun ev => match ev with Request u => Some u | Log _ _ => None end) t.

(** How many times a URL was requested. *)
Definition times_requested (u : string) (t : list event) : nat :=
  length (filter (fun x => x = u) (requests t)).

(** ** ListingExtractor: the field extractors *)

Definition get_title (soup : JobSoup) : result string :=
  let! a := attr_of_found (find_jobTitle soup) in Ok (strip a).

Definition get_company (soup : JobSoup) : result string :=
  let! a := attr_of_found (find_company soup) in Ok (strip a).

Definition get_location (soup : JobSoup) : result string :=
  let! a := attr_of_found (find_location soup) in Ok (strip a).

Definition get_tags (soup : JobSoup) : result (list string) :=
  let! cells := attr_of_found (find_jobCardShelf soup) in
  Ok (map strip cells).

Definition get_date (soup : JobSoup) : result string :=
  let! a := attr_of_found (find_date soup) in Ok (strip a).

(** [str(soup.find(...))]: the markup of the element, or [None] as text. *)
Definition str_of_found (found : option string) : string :=
  match found with
  | Some markup => markup
  | None => "None"
  end.

Definition get_id (soup : JobSoup) : result string :=
  item0 (findall id_regex (str_of_found (find_save_job_link soup))).

(** [get_link], the same in both subclasses. *)
Definition get_link `{World} (self : Scraper) (job_id : string) : string :=
  "http://www.indeed." +:+ get_domain_from_locale (self_locale self)
  +:+ "/viewjob?jk=" +:+ job_id.

Definition get_search_url `{World} (self : Scraper) (method : string)
    : result string :=
  if decide (method = "get") then
    let st := search_terms self in
    Ok ("https://www.indeed." +:+ get_domain_from_locale (self_locale self)
        +:+ "/jobs?q=" +:+ self_query self
        +:+ "&l=" +:+ replace_char " " "+" (city st)
        +:+ "%2C+"
        +:+ match scraper_class self with
            | IndeedScraperCAEng => province st
            | IndeedScraperUSAEng => state st
            end
        +:+ "&radius="
        +:+ str_of_int (convert_radius
              match scraper_class self with
              | IndeedScraperCAEng => radius st
              | IndeedScraperUSAEng => region_radius st
              end)
        +:+ "&limit=" +:+ str_of_int max_results_per_page
        +:+ "&filter=" +:+ str_of_int (int_of_bool (return_similar_results st)))
  else if decide (method = "post") then Raise NotImplementedError
  else Raise ValueError.

(** ** PageLocator *)

(** Lines 247-248: the result count read off the first page. *)
Definition result_count (soup_base : PageSoup) : result Z :=
  let! contents := attr_of_found (find_searchCountPages soup_base) in
  let! first := item0 contents in
  let num_res := strip first in
  let! digits := item0 (findall count_regex (replace_char "," "" num_res)) in
  int digits.

Definition get_num_pages_to_scrape (soup_base : PageSoup) (max_pages : Z)
    : result Z :=
  let! num_res := result_count soup_base in
  num_pages_of_count num_res max_pages.

(** ** PageFetcher *)

Definition page_url (search : string) (page : Z) : string :=
  search +:+ "&start=" +:+ str_of_int (page * max_results_per_page).

Definition search_page_for_job_soups `{World} (search : string) (page : Z)
    (job_soup_list : list JobSoup) : M (list JobSoup) :=
  let url := page_url search page in
  let* _ :=
    logger INFO ("getting indeed page " +:+ str_of_int page +:+ " : " +:+ url)
  in
  let* text := get url in
  ret (job_soup_list ++ find_all_organicJob (BeautifulSoup text)).

(** [range(0, pages)]: one task is submitted per page index. *)
Definition submitted (pages : Z) : list Z := seqZ 0 pages.

(** The pool at work: the tasks, each run to its end, in the order in which
    they complete. *)
Fixpoint run_tasks `{World} (search : string) (tasks : list Z)
    (job_soup_list : list JobSoup) : M (list JobSoup) :=
  match tasks with
  | [] => ret job_soup_list
  | page :: rest =>
      let* job_soup_list := search_page_for_job_soups search page job_soup_list in
      run_tasks search rest job_soup_list
  end.

(** Lines 53-70 of [scrape]: submit the page tasks, wait for all of them. *)
Definition fetch_pages `{World} (search : string) (pages : Z)
    : M (list JobSoup) :=
  run_tasks search (completion_order (submitted pages)) [].

(** ** ListingExtractor and Aggregator: the loop of [scrape] *)

(** Lines 82-91: the information a job must at least have. *)
Definition required_info `{World} (self : Scraper) (s : JobSoup)
    : result (string * string * string * string * string) :=
  let! title := get_title s in
  let! company := get_company s in
  let! location := get_location s in
  let! key_id := get_id s in
  let url := get_link self key_id in
  Ok (title, company, location, key_id, url).

(** Lines 93-96. *)
Definition scrape_tags (key_id : string) (s : JobSoup) : M (list string) :=
  match get_tags s with
  | Ok tags => ret tags
  | Raise AttributeError =>
      let* _ := logger WARNING ("Unable to scrape job tags for " +:+ key_id) in
      ret []
  | Raise e => raise e
  end.

(** Lines 98-103. *)
Definition scrape_post_date (key_id : string) (s : JobSoup) : M PostDate :=
  match get_date s with
  | Ok text => ret (RelativeDate text)
  | Raise AttributeError =>
      let* _ :=
        logger WARNING ("Unable to scrape job post date for " +:+ key_id) in
      ret NoDate
  | Raise e => raise e
  end.

(** Lines 105-121: [Job(...)]. *)
Definition new_job (self : Scraper) (s : JobSoup)
    (title company location key_id url : string)
    (tags : list string) (post_date : PostDate) : Job :=
  {| title := title;
     company := company;
     location := location;
     description := "";
     key_id := key_id;
     url := url;
     locale := self_locale self;
     query := self_query self;
     status := NEW;
     provider := "indeed";
     short_description := None;
     post_date := post_date;
     raw := s;
     tags := tags |}.

(** Lines 129-136: fix the date to not be relative. *)
Definition fix_post_date `{World} (job : Job) : M Job :=
  match set_post_date_from_relative_date job with
  | Ok job' => ret job'
  | Raise ValueError =>
      let* _ :=
        logger ERROR ("Unknown date for job " +:+ key_id job
                      +:+ ", setting to epoch date.") in
      ret (set_post_date job (AbsoluteDate epoch))
  | Raise e => raise e
  end.

(** The body of the loop up to the insertion: the job made from one
    fragment, or [None] where the loop continues without one. *)
Definition extract_job `{World} (self : Scraper) (s : JobSoup)
    : M (option Job) :=
  match required_info self s with
  | Raise AttributeError =>
      let* _ := logger ERROR "Unable to scrape minimum-required job info!" in
      ret None
  | Raise e => raise e
  | Ok (title, company, location, key_id, url) =>
      let* tags := scrape_tags key_id s in
      let* post_date := scrape_post_date key_id s in
      let job :=
        new_job self s title company location key_id url tags post_date in
      let* job := fix_post_date job in
      ret (Some job)
  end.

(** Line 139: [jobs_dict[job.key_id] = job]. *)
Definition add_job (jobs_dict : gmap string Job) (r : option Job)
    : gmap string Job :=
  match r with
  | Some job => <[key_id job := job]> jobs_dict
  | None => jobs_dict
  end.

(** Lines 73-139: [for s in job_soup_list]. *)
Fixpoint scrape_soups `{World} (self : Scraper) (job_soup_list : list JobSoup)
    (jobs_dict : gmap string Job) : M (gmap string Job) :=
  match job_soup_list with
  | [] => ret jobs_dict
  | s :: rest =>
      let* r := extract_job self s in
      scrape_soups self rest (add_job jobs_dict r)
  end.

(** Lines 40-70: the fragments of all result pages. *)
Definition scrape_job_soups `{World} (self : Scraper) : M (list JobSoup) :=
  let* search := lift (get_search_url self "get") in
  let* request_html := get search in
  let soup_base := BeautifulSoup request_html in
  let* pages := lift (get_num_pages_to_scrape soup_base 0) in
  let* _ :=
    logger INFO ("Found " +:+ str_of_int pages
                 +:+ " indeed results for query=" +:+ self_query self) in
  fetch_pages search pages.

Definition scrape `{World} (self : Scraper) : M (gmap string Job) :=
  let* job_soup_list := scrape_job_soups self in
  scrape_soups self job_soup_list ∅.

(** The job that one fragment contributes, if any. *)
Definition derived `{World} (self : Scraper) (s : JobSoup) : option Job :=
  match extract_job self s with
  | Ok (r, _) => r
  | Raise _ => None
  end.

(** The jobs with a given [key_id] among those of a fragment sequence. *)
Definition derived_with_key `{World} (self : Scraper) (k : string)
    (soups : list JobSoup) : list Job :=
  filter (fun job => key_id job = k) (omap (derived self) soups).

(** The events that the loop body causes on one fragment. *)
Definition extraction_events `{World} (self : Scraper) (s : JobSoup)
    : list event :=
  match extract_job self s with
  | Ok (_, t) => t
  | Raise _ => []
  end.

(** ** SecondaryDescriptionFetcher *)

(** Lines 202-208 of [get_full_description]. *)
Definition scrape_description (job_url : string) (job_link_soup : PageSoup)
    : M string :=
  match (let! el := attr_of_found (find_jobDescriptionText job_link_soup) in
         Ok (strip el)) with
  | Ok text => ret text
  | Raise AttributeError =>
      let* _ :=
        logger WARNING ("Unable to load description for: " +:+ job_url) in
      ret ""
  | Raise e => raise e
  end.

Definition get_full_description `{World} (job : Job) : M Job :=
  let* _ := logger INFO ("getting indeed page: " +:+ url job) in
  let* text := get (url job) in
  let job_link_soup := BeautifulSoup text in
  let* short := scrape_description (url job) job_link_soup in
  ret (clean_strings (set_short_desc job (Some short))).

Definition set_short_description `{World} (job : Job) (soup : string)
    : result Job :=
  let job_link_soup := BeautifulSoup soup in
  match (let! el := attr_of_found (find_jobDescriptionText job_link_soup) in
         Ok (strip el)) with
  | Ok text => Ok (clean_strings (set_description job text))
  | Raise AttributeError => Ok (clean_strings (set_description job ""))
  | Raise e => Raise e
  end.

(** ** A canned world, for running the scraper on concrete pages *)

Module Sample.

Definition terms : SearchTerms :=
  {| keywords := ["python"; "data"];
     city := "Kitchener Waterloo";
     province := "ON";
     state := "NY";
     radius := 24;
     region_radius := 150;
     return_similar_results := false |}.

Definition ca : Scraper := mkScraper IndeedScraperCAEng terms.
Definition usa : Scraper := mkScraper IndeedScraperUSAEng terms.

Definition ca_search : string :=
  "https://www.indeed.ca/jobs?q=python+data&l=Kitchener+Waterloo%2C+ON&radius=15&limit=50&filter=0".
Definition usa_search : string :=
  "https://www.indeed.com/jobs?q=python+data&l=Kitchener+Waterloo%2C+NY&radius=100&limit=50&filter=0".

(** The markup of a save-job link carrying the id [sj_<id>]. *)
Definition save_link (id : string) : string :=
  "<a class=sl id=" +:+ String dquote ("sj_" +:+ id)
  +:+ String dquote " href=#>save job</a>".

Definition listing (t c l : option string) (shelf : option (list string))
    (d : option string) (id : option string) : JobSoup :=
  {| find_jobTitle := t;
     find_company := c;
     find_location := l;
     find_jobCardShelf := shelf;
     find_date := d;
     find_save_job_link := save_link <$> id |}.

Definition engineer : JobSoup :=
  listing (Some " Data Engineer ") (Some "Acme") (Some "Waterloo, ON")
    (Some [" Remote "; "Full-time"]) (Some " today ") (Some "abc123").

(** A later listing that bears the same id. *)
Definition engineer_again : JobSoup :=
  listing (Some "Senior Data Engineer") (Some "Acme") (Some "Waterloo, ON")
    (Some []) (Some "today") (Some "abc123").

Definition analyst : JobSoup :=
  listing (Some "Analyst") (Some "Initech") (Some "Kitchener, ON")
    (Some ["Part-time"]) (Some "today") (Some "k2").

Definition no_title : JobSoup :=
  listing None (Some "Globex") (Some "Guelph, ON")
    (Some []) (Some "today") (Some "k3").

Definition no_company : JobSoup :=
  listing (Some "Clerk") None (Some "Guelph, ON")
    (Some []) (Some "today") (Some "k5").

(** No tags shelf, and a date text that is not a relative date. *)
Definition odd_date : JobSoup :=
  listing (Some "Tester") (Some "Hooli") (Some "Cambridge, ON")
    None (Some "last Tuesday-ish") (Some "k4").

(** No date element. *)
Definition no_date : JobSoup :=
  listing (Some "Tester") (Some "Hooli") (Some "Cambridge, ON")
    (Some ["Contract"]) None (Some "k6").

(** Title, company and location are there; the save-job link is not. *)
Definition no_id : JobSoup :=
  listing (Some "Writer") (Some "Umbrella") (Some "Elora, ON")
    (Some []) (Some "today") None.

Definition results_page (count : string) (jobs : list JobSoup) : PageSoup :=
  {| find_searchCountPages := Some [count];
     find_all_organicJob := jobs;
     find_jobDescriptionText := None |}.

Definition today : datetime := mkDatetime 2020 7 15.

(** The response text of a request stands for the URL requested; the
    parser hands out the pages below. *)
Definition parse (text : string) : PageSoup :=
  if decide (text = ca_search) then results_page " Page 1 of 75 jobs" []
  else if decide (text = page_url ca_search 0)
    then results_page "Page 1 of 75 jobs" [engineer; no_title]
  else if decide (text = page_url ca_search 1)
    then results_page "Page 2 of 75 jobs" [analyst; odd_date]
  else if decide (text = usa_search) then results_page "Page 1 of 1,075 jobs" []
  else if decide (text = page_url usa_search 2)
    then results_page "Page 3 of 1,075 jobs" [engineer_again; analyst]
  else if decide (text = page_url usa_search 21)
    then results_page "Page 22 of 1,075 jobs" [engineer]
  else if decide (text = "http://www.indeed.ca/viewjob?jk=abc123")
    then {| find_searchCountPages := None;
            find_all_organicJob := [];
            find_jobDescriptionText := Some "  We build pipelines. " |}
  else {| find_searchCountPages := None;
          find_all_organicJob := [];
          find_jobDescriptionText := None |}.

Definition normalize (d : PostDate) : result datetime :=
  match d with
  | RelativeDate text =>
      if decide (text = "today") then Ok today else Raise ValueError
  | _ => Raise TypeError
  end.

#[local] Instance world : World :=
  {| session_get := fun url => url;
     BeautifulSoup := parse;
     get_domain_from_locale := fun l =>
       match l with CANADA_ENGLISH => "ca" | USA_ENGLISH => "com" end;
     relative_date := normalize;
     clean_strings := fun job => job;
     completion_order := reverse;
     completion_order_perm := reverse_Permutation |}.

(** A fix-up that reports a missing date as it reports an unknown one. *)
Definition lenient_normalize (d : PostDate) : result datetime :=
  match d with
  | RelativeDate _ => normalize d
  | _ => Raise ValueError
  end.

#[local] Instance lenient_world : World :=
  {| session_get := fun url => url;
     BeautifulSoup := parse;
     get_domain_from_locale := fun l =>
       match l with CANADA_ENGLISH => "ca" | USA_ENGLISH => "com" end;
     relative_date := lenient_normalize;
     clean_strings := fun job => job;
     completion_order := reverse;
     completion_order_perm := reverse_Permutation |}.

(** Neither a tags shelf nor a date element. *)
Definition bare : JobSoup :=
  listing (Some "Driver") (Some "Vandelay") (Some "Fergus, ON")
    None None (Some "k7").

(** A first page announcing more results than a binary64 quotient can
    tell apart. *)
Definition huge_page : PageSoup :=
  results_page "Page 1 of 14,073,748,835,532,801 jobs" [].

Definition page_237 : PageSoup :=
  results_page "Page 1 of 237 jobs" [].

(** A job as an earlier pass may have left it, with a description. *)
Definition stale_job : Job :=
  {| title := "Data Engineer";
     company := "Acme";
     location := "Waterloo, ON";
     description := "An earlier description";
     key_id := "zzz999";
     url := "http://www.indeed.ca/viewjob?jk=zzz999";
     locale := CANADA_ENGLISH;
     query := "python+data";
     status := NEW;
     provider := "indeed";
     short_description := None;
     post_date := AbsoluteDate today;
     raw := engineer;
     tags := [] |}.

End Sample.

(** ** Notions used to state further properties *)

(** The radius values that [convert_radius] assigns. *)
Definition radius_values : list Z := [0; 5; 10; 15; 25; 50; 100].

(** Every character of a string satisfies [p]. *)
Fixpoint all_chars (p : ascii -> bool) (s : string) : bool :=
  match s with
  | EmptyString => true
  | String c s' => p c && all_chars p s'
  end.

(** The fragments of one result page, as its task finds them. *)
Definition page_job_soups `{World} (search : string) (page : Z)
    : list JobSoup :=
  find_all_organicJob (BeautifulSoup (session_get (page_url search page))).

(** A character other than the letter [f]. *)
Definition not_f (c : ascii) : bool := negb (Ascii.eqb c "f").

(** The error that the loop logs for a fragment it drops. *)
Definition dropped_event : event :=
  Log ERROR "Unable to scrape minimum-required job info!".

(** * Properties *)

(** ** The Python primitives on concrete inputs *)

Example strip_sample : strip "  Page 1 of 237 jobs " = "Page 1 of 237 jobs".
Proof. reflexivity. Qed.

Example strip_no_break_space :
  strip (String "160" ("Acme" +:+ String "133" (String "009" "")))
  = "Acme".
Proof. reflexivity. Qed.

Example int_digit_limit :
  int (string_of_list_ascii (repeat "0"%char 4299) +:+ "7") = Ok 7
  /\ int (string_of_list_ascii (repeat "0"%char 4300) +:+ "7")
     = Raise ValueError.
Proof. split; vm_compute; reflexivity. Qed.

Example count_regex_sample :
  findall count_regex (replace_char "," "" "Page 1 of 1,075 jobs") = ["1075"].
Proof. reflexivity. Qed.

Example count_regex_no_match : findall count_regex "Page 1 of many" = [].
Proof. reflexivity. Qed.

Example id_regex_sample :
  findall id_regex (Sample.save_link "abc123") = ["abc123"].
Proof. reflexivity. Qed.

Example id_regex_None : findall id_regex (str_of_found None) = [].
Proof. reflexivity. Qed.

Example true_divide_1_3 :
  true_divide 1 3 = Ok (mkFloat 6004799503160661 (-54)).
Proof. vm_compute. reflexivity. Qed.

Example true_divide_237_50 :
  true_divide 237 50 = Ok (mkFloat 5336765558434038 (-50)).
Proof. vm_compute. reflexivity. Qed.

Example true_divide_ties_to_even :
  true_divide (2 ^ 53 + 1) 1 = Ok (mkFloat (2 ^ 52) 1)
  /\ true_divide (2 ^ 53 + 3) 1 = Ok (mkFloat (2 ^ 52 + 2) 1).
Proof. split; vm_compute; reflexivity. Qed.

Example true_divide_overflow : true_divide (2 ^ 1024) 1 = Raise OverflowError.
Proof. vm_compute. reflexivity. Qed.

Example get_search_url_samples :
  @get_search_url Sample.world Sample.ca "get" = Ok Sample.ca_search
  /\ @get_search_url Sample.world Sample.usa "get" = Ok Sample.usa_search
  /\ @get_search_url Sample.world Sample.ca "post" = Raise NotImplementedError
  /\ @get_search_url Sample.world Sample.ca "put" = Raise ValueError.
Proof. repeat split; vm_compute; reflexivity. Qed.

(** ** RadiusQuantizer *)

Lemma in_intervalb_spec lo hi r :
  in_intervalb lo hi r = true <-> in_interval lo hi r.
Proof.
  unfold in_intervalb, in_interval.
  rewrite andb_true_iff, Z.leb_le.
  destruct hi as [h|]; [rewrite Z.ltb_lt|]; intuition.
Qed.

Ltac radius_cases r :=
  unfold convert_radius;
  repeat match goal with
  | |- context [ (?a <? ?b) ] => destruct (Z.ltb_spec a b); simpl
  | |- context [ (?a <=? ?b) ] => destruct (Z.leb_spec a b); simpl
  | |- context [ (?a >=? ?b) ] =>
      rewrite (Z.geb_leb a b); destruct (Z.leb_spec b a); simpl
  end;
  try lia.

Lemma convert_radius_cases r :
  (r < 5 /\ convert_radius r = 0)
  \/ (5 <= r < 10 /\ convert_radius r = 5)
  \/ (10 <= r < 15 /\ convert_radius r = 10)
  \/ (15 <= r < 25 /\ convert_radius r = 15)
  \/ (25 <= r < 50 /\ convert_radius r = 25)
  \/ (50 <= r < 100 /\ convert_radius r = 50)
  \/ (100 <= r /\ convert_radius r = 100).
Proof. radius_cases r. Qed.

Lemma convert_radius_idempotent r :
  convert_radius (convert_radius r) = convert_radius r.
Proof.
  destruct (convert_radius_cases r)
    as [[_ ->]|[[_ ->]|[[_ ->]|[[_ ->]|[[_ ->]|[[_ ->]|[_ ->]]]]]]];
    reflexivity.
Qed.

Lemma radius_bucket_convert r :
  0 <= r -> radius_bucket r = Some (convert_radius r).
Proof.
  intros Hr. unfold radius_bucket, radius_buckets, in_intervalb. simpl.
  destruct (convert_radius_cases r)
    as [[H ->]|[[H ->]|[[H ->]|[[H ->]|[[H ->]|[[H ->]|[H ->]]]]]]];
    repeat match goal with
    | |- context [ (?a <? ?b) ] => destruct (Z.ltb_spec a b); simpl; try lia
    | |- context [ (?a <=? ?b) ] => destruct (Z.leb_spec a b); simpl; try lia
    end; reflexivity.
Qed.

Lemma convert_radius_in_bucket r lo hi b :
  (lo, hi, b) ∈ radius_buckets -> in_interval lo hi r -> convert_radius r = b.
Proof.
  unfold radius_buckets, in_interval. intros Hin [Hlo Hhi].
  rewrite !elem_of_cons, elem_of_nil in Hin.
  destruct (convert_radius_cases r)
    as [[H ->]|[[H ->]|[[H ->]|[[H ->]|[[H ->]|[[H ->]|[H ->]]]]]]];
    destruct Hin as [Hin|[Hin|[Hin|[Hin|[Hin|[Hin|[Hin|[]]]]]]]];
    injection Hin as -> -> ->; lia.
Qed.

(** C7. For every non-negative radius, [convert_radius] returns the bucket
    that the table of half-open intervals [0,5)->0, [5,10)->5, [10,15)->10,
    [15,25)->15, [25,50)->25, [50,100)->50, [100,oo)->100 gives it: the
    table has an interval for it, and whenever a radius lies in an interval
    of the table the result is the bucket of this interval. For every
    radius, quantizing a quantized value changes nothing. *)
Theorem convert_radius_buckets_idempotent (r : Z) :
  (0 <= r -> radius_bucket r = Some (convert_radius r))
  /\ (forall lo hi b,
        (lo, hi, b) ∈ radius_buckets -> in_interval lo hi r ->
        convert_radius r = b)
  /\ convert_radius (convert_radius r) = convert_radius r.
Proof.
  split; [apply radius_bucket_convert|].
  split; [intros lo hi b; apply convert_radius_in_bucket|].
  apply convert_radius_idempotent.
Qed.

Lemma convert_radius_buckets_idempotent_witness :
  (0 <= 24 /\ radius_bucket 24 = Some (convert_radius 24))
  /\ ((15, Some 25, 15) ∈ radius_buckets /\ in_interval 15 (Some 25) 24
      /\ convert_radius 24 = 15)
  /\ convert_radius (convert_radius 24) = convert_radius 24.
Proof.
  destruct (convert_radius_buckets_idempotent 24) as (Hb & Hin & Hid).
  assert ((15, Some 25, 15) ∈ radius_buckets) as Hmem.
  { unfold radius_buckets. do 3 right. left. }
  assert (in_interval 15 (Some 25) 24) as Hint.
  { unfold in_interval. lia. }
  split; [split; [lia | apply Hb; lia]|].
  split; [|exact Hid].
  split; [exact Hmem|]. split; [exact Hint|].
  exact (Hin 15 (Some 25) 15 Hmem Hint).
Defined.

Example convert_radius_samples :
  map convert_radius [0; 4; 5; 9; 10; 24; 25; 49; 50; 99; 150]
  = [0; 0; 5; 5; 10; 15; 25; 25; 50; 50; 100].
Proof. reflexivity. Qed.

(** C10. [convert_radius] is defined on every integer, and a negative
    radius falls in its first branch: the result is the bucket 0. *)
Theorem convert_radius_negative (r : Z) :
  r < 0 -> convert_radius r = 0.
Proof.
  intros Hr. unfold convert_radius.
  destruct (Z.ltb_spec r 5); [reflexivity | lia].
Qed.

Lemma convert_radius_negative_witness :
  -7 < 0 /\ convert_radius (-7) = 0.
Proof.
  split; [lia | apply (convert_radius_negative (-7)); lia].
Defined.

(** ** PageLocator *)

Lemma ceil_div_unique n d q :
  0 < d -> (q - 1) * d < n <= q * d -> ceil_div n d = q.
Proof.
  intros Hd Hq. unfold ceil_div.
  rewrite <- (Z.div_unique (- n) d (- q) (q * d - n)); lia.
Qed.

(** [ceil_div n d] is the least integer that is at least [n / d]. *)
Lemma ceil_div_spec n d :
  0 < d -> (ceil_div n d - 1) * d < n <= ceil_div n d * d.
Proof.
  intros Hd. unfold ceil_div.
  pose proof (Z.div_mod (- n) d ltac:(lia)) as Hdm.
  pose proof (Z.mod_pos_bound (- n) d Hd) as Hb.
  nia.
Qed.

(** Rounding moves a quotient by at most one half. *)
Lemma round_half_even_near a b :
  0 < b ->
  2 * a - b <= 2 * b * round_half_even a b <= 2 * a + b.
Proof.
  intros Hb. unfold round_half_even.
  pose proof (Z.div_mod a b ltac:(lia)) as Hdm.
  pose proof (Z.mod_pos_bound a b Hb) as Hr.
  destruct (Z.ltb_spec (2 * (a mod b)) b);
    [|destruct (Z.ltb_spec b (2 * (a mod b)));
      [|destruct (Z.even (a / b))]]; nia.
Qed.

(** With at least five fractional bits, rounding the quotient by 50 to the
    nearest multiple of [1 / P] does not move it across an integer. *)
Lemma ceil_round_half_even n P :
  0 <= n -> 32 <= P ->
  ceil_div (round_half_even (n * P) 50) P = ceil_div n 50.
Proof.
  intros Hn HP.
  pose proof (round_half_even_near (n * P) 50 ltac:(lia)) as Hm.
  set (m := round_half_even (n * P) 50) in *.
  pose proof (ceil_div_spec n 50 ltac:(lia)) as Hc.
  set (c := ceil_div n 50) in *.
  assert (n * P <= 50 * c * P) by nia.
  assert (50 * (c - 1) * P + P <= n * P) by nia.
  apply ceil_div_unique; [lia|].
  split; lia.
Qed.

Lemma quotient_exponent_50 n :
  0 < n < 50 * 2 ^ 48 -> -6 <= quotient_exponent n 50 <= 47.
Proof.
  intros [Hpos Hlt]. unfold quotient_exponent.
  change (Z.log2 50) with 5.
  pose proof (Z.log2_nonneg n) as H0.
  assert (Z.log2 n < 54) as H54.
  { apply Z.log2_lt_pow2; [lia|]. change (2 ^ 54) with (64 * 2 ^ 48). lia. }
  destruct (Z.leb_spec 0 (Z.log2 n - 5)) as [Hd|Hd].
  - destruct (Z.leb_spec (50 * 2 ^ (Z.log2 n - 5)) n) as [Hle|Hgt]; [|lia].
    split; [lia|].
    assert (2 ^ (Z.log2 n - 5) < 2 ^ 48) as Hp by lia.
    apply Z.pow_lt_mono_r_iff in Hp; lia.
  - destruct (50 <=? n * 2 ^ (- (Z.log2 n - 5))); lia.
Qed.

(** Below [50 * 2 ^ 48] results, the binary64 quotient by the page size has
    the ceiling of the exact quotient. *)
Lemma true_divide_50_ceil n :
  0 <= n <= 50 * 2 ^ 48 ->
  exists x, true_divide n 50 = Ok x /\ ceil x = ceil_div n 50.
Proof.
  intros [Hlo Hhi].
  destruct (Z.eq_dec n 0) as [->|Hn0].
  { eexists. split; reflexivity. }
  destruct (Z.eq_dec n (50 * 2 ^ 48)) as [->|Hn1].
  { eexists. split; vm_compute; reflexivity. }
  pose proof (quotient_exponent_50 n ltac:(lia)) as Hx.
  unfold true_divide.
  change (50 =? 0) with false. cbv iota.
  destruct (Z.eqb_spec n 0) as [|_]; [lia|].
  rewrite (Z.sgn_pos n) by lia. change (Z.sgn 50) with 1.
  rewrite (Z.abs_eq n) by lia. change (Z.abs 50) with 50.
  set (x := quotient_exponent n 50) in *.
  rewrite (Z.max_l (x - 52) (-1074)) by lia.
  destruct (Z.leb_spec 0 (x - 52)) as [|_]; [lia|].
  destruct (Z.ltb_spec 971 (x - 52)) as [|_]; [lia|].
  destruct (Z.eqb_spec (x - 52) 971) as [|_]; [lia|].
  cbv beta iota zeta. rewrite orb_false_l, andb_false_l.
  eexists. split; [reflexivity|].
  unfold ceil. cbv [fexp fmant].
  destruct (Z.leb_spec 0 (x - 52)) as [|_]; [lia|].
  rewrite Z.mul_1_l.
  apply ceil_round_half_even; [lia|].
  change 32 with (2 ^ 5). apply Z.pow_le_mono_r; lia.
Qed.

Lemma int_of_digits_nonneg s : forall acc n,
  0 <= acc -> int_of_digits acc s = Ok n -> 0 <= n.
Proof.
  induction s as [|c s IH]; simpl; intros acc n Hacc Hn.
  - congruence.
  - destruct (is_digit c); [|discriminate].
    eapply IH; [|exact Hn]. lia.
Qed.

Lemma rbind_Ok {A B : Type} (c : result A) (k : A -> result B) b :
  rbind c k = Ok b -> exists a, c = Ok a /\ k a = Ok b.
Proof. destruct c as [a|e]; simpl; [eauto | discriminate]. Qed.

Lemma int_Ok s n :
  int s = Ok n ->
  int_of_digits 0 s = Ok n
  /\ s <> EmptyString
  /\ (String.length s <= int_max_str_digits)%nat.
Proof.
  unfold int. destruct s as [|a s]; [discriminate|].
  destruct (Nat.ltb_spec int_max_str_digits (String.length (String a s)));
    [discriminate|].
  intros Hn. split; [exact Hn|]. split; [discriminate | lia].
Qed.

(** The count read off a page is never negative. *)
Lemma result_count_nonneg soup_base n :
  result_count soup_base = Ok n -> 0 <= n.
Proof.
  unfold result_count. intros Hn.
  repeat (apply rbind_Ok in Hn as (? & _ & Hn)).
  apply int_Ok in Hn as (Hn & _).
  eapply int_of_digits_nonneg; [|exact Hn]. lia.
Qed.

Lemma num_pages_of_count_ceil n max_pages :
  0 <= n <= 50 * 2 ^ 48 ->
  num_pages_of_count n max_pages
  = Ok (if max_pages =? 0 then ceil_div n 50
        else if ceil_div n 50 <? max_pages then ceil_div n 50
        else max_pages).
Proof.
  intros Hn. destruct (true_divide_50_ceil n Hn) as (x & Hx & Hc).
  unfold num_pages_of_count, max_results_per_page.
  rewrite Hx. simpl. rewrite Hc.
  destruct (max_pages =? 0); [reflexivity|].
  destruct (ceil_div n 50 <? max_pages); reflexivity.
Qed.

(** Where the binary64 quotient is exact enough, the page count is the
    ceiling: for every result count [n] up to [50 * 2 ^ 48] read off the
    first page, [get_num_pages_to_scrape] returns the ceiling of [n / 50]
    when [max_pages] is 0, returns [max_pages] when the page count exceeds
    a positive [max_pages], and the page count itself when it does not. *)
Theorem get_num_pages_to_scrape_ceil (soup_base : PageSoup) (n : Z) :
  result_count soup_base = Ok n ->
  n <= 50 * 2 ^ 48 ->
  get_num_pages_to_scrape soup_base 0 = Ok (ceil_div n max_results_per_page)
  /\ (forall max_pages, 0 < max_pages ->
        ceil_div n max_results_per_page > max_pages ->
        get_num_pages_to_scrape soup_base max_pages = Ok max_pages)
  /\ (forall max_pages, 0 < max_pages ->
        ceil_div n max_results_per_page <= max_pages ->
        get_num_pages_to_scrape soup_base max_pages
        = Ok (ceil_div n max_results_per_page)).
Proof.
  intros Hcount Hmax.
  pose proof (result_count_nonneg _ _ Hcount) as Hpos.
  unfold get_num_pages_to_scrape, max_results_per_page. rewrite Hcount. simpl.
  repeat split.
  - rewrite num_pages_of_count_ceil by lia. reflexivity.
  - intros mp Hmp Hgt. rewrite num_pages_of_count_ceil by lia.
    destruct (Z.eqb_spec mp 0); [lia|].
    destruct (Z.ltb_spec (ceil_div n 50) mp); [lia | reflexivity].
  - intros mp Hmp Hle. rewrite num_pages_of_count_ceil by lia.
    destruct (Z.eqb_spec mp 0); [lia|].
    destruct (Z.ltb_spec (ceil_div n 50) mp); [reflexivity|].
    f_equal. lia.
Qed.

Lemma get_num_pages_to_scrape_ceil_witness :
  result_count Sample.page_237 = Ok 237
  /\ 237 <= 50 * 2 ^ 48
  /\ get_num_pages_to_scrape Sample.page_237 0 = Ok 5
  /\ get_num_pages_to_scrape Sample.page_237 3 = Ok 3
  /\ get_num_pages_to_scrape Sample.page_237 8 = Ok 5.
Proof.
  pose proof (get_num_pages_to_scrape_ceil Sample.page_237 237
                eq_refl ltac:(vm_compute; discriminate)) as (H0 & Hcap & Hfree).
  split; [reflexivity|].
  split; [vm_compute; discriminate|].
  split; [exact H0|].
  split.
  - apply (Hcap 3); vm_compute; reflexivity.
  - apply (Hfree 8); [reflexivity | vm_compute; discriminate].
Defined.

(** C3, at a count the code gets wrong. The page count is to be the
    ceiling of the count over 50; for the count [50 * 2 ^ 48 + 1] the
    quotient rounds to [2 ^ 48] in binary64 before [ceil] sees it, and
    [get_num_pages_to_scrape] returns [2 ^ 48], one page short of the
    ceiling [2 ^ 48 + 1]. *)
Theorem get_num_pages_to_scrape_huge_count :
  result_count Sample.huge_page = Ok (50 * 2 ^ 48 + 1)
  /\ get_num_pages_to_scrape Sample.huge_page 0 = Ok (2 ^ 48)
  /\ ceil_div (50 * 2 ^ 48 + 1) max_results_per_page = 2 ^ 48 + 1
  /\ get_num_pages_to_scrape Sample.huge_page 0
     <> Ok (ceil_div (50 * 2 ^ 48 + 1) max_results_per_page).
Proof.
  repeat split; try (vm_compute; reflexivity).
  vm_compute. discriminate.
Qed.

Example get_num_pages_to_scrape_237 :
  get_num_pages_to_scrape Sample.page_237 0 = Ok 5.
Proof. reflexivity. Qed.

(** ** Effects *)

Lemma bind_Ok {A B : Type} (c : M A) (k : A -> M B) b t :
  bind c k = Ok (b, t) ->
  exists a t1 t2, c = Ok (a, t1) /\ k a = Ok (b, t2) /\ t = t1 ++ t2.
Proof.
  unfold bind. destruct c as [[a t1]|e]; [|discriminate].
  destruct (k a) as [[b' t2]|e] eqn:Hk; [|discriminate].
  intros [= -> <-]. eauto 6.
Qed.

Lemma bind_Ok_intro {A B : Type} (c : M A) (k : A -> M B) a t1 b t2 :
  c = Ok (a, t1) -> k a = Ok (b, t2) -> bind c k = Ok (b, t1 ++ t2).
Proof. intros -> Hk. unfold bind. rewrite Hk. reflexivity. Qed.

Lemma requests_app t1 t2 : requests (t1 ++ t2) = requests t1 ++ requests t2.
Proof. unfold requests. apply omap_app. Qed.

(** ** PageFetcher *)

#[global] Instance page_url_inj search : Inj (=) (=) (page_url search).
Proof.
  intros p q Heq. unfold page_url, str_of_int in Heq.
  do 2 apply (inj (String.app _)) in Heq.
  apply (inj pretty) in Heq. unfold max_results_per_page in Heq. lia.
Qed.

(** Each task requests the URL of its page, once, and nothing else. *)
Lemma search_page_for_job_soups_requests `{World} search page l :
  exists l' t,
    search_page_for_job_soups search page l = Ok (l', t)
    /\ requests t = [page_url search page].
Proof. eexists _, _. split; reflexivity. Qed.

Lemma run_tasks_requests `{World} search tasks : forall l,
  exists l' t,
    run_tasks search tasks l = Ok (l', t)
    /\ requests t = page_url search <$> tasks.
Proof.
  induction tasks as [|page rest IH]; intros l.
  - eexists _, _. split; reflexivity.
  - change (run_tasks search (page :: rest) l)
      with (bind (search_page_for_job_soups search page l)
                 (run_tasks search rest)).
    destruct (search_page_for_job_soups_requests search page l)
      as (l1 & t1 & H1 & Hr1).
    destruct (IH l1) as (l2 & t2 & H2 & Hr2).
    exists l2, (t1 ++ t2). split.
    + eapply bind_Ok_intro; eassumption.
    + rewrite requests_app, Hr1, Hr2. reflexivity.
Qed.

Lemma filter_eq_absent (u : string) (l : list string) :
  u ∉ l -> filter (fun x => x = u) l = [].
Proof.
  induction l as [|x l IH]; intros Hu; [reflexivity|].
  apply not_elem_of_cons in Hu as [Hne Hu].
  rewrite filter_cons_False by congruence. auto.
Qed.

Lemma filter_eq_NoDup_length (u : string) (l : list string) :
  NoDup l -> u ∈ l -> length (filter (fun x => x = u) l) = 1%nat.
Proof.
  induction 1 as [|x l Hx Hnd IH]; intros Hin.
  - inversion Hin.
  - destruct (decide (x = u)) as [->|Hne].
    + rewrite filter_cons_True by reflexivity.
      rewrite filter_eq_absent by assumption. reflexivity.
    + rewrite filter_cons_False by assumption.
      apply IH. apply elem_of_cons in Hin as [->|Hin]; [contradiction|done].
Qed.

(** C4. Whatever the page count and the order in which the pool completes
    its tasks, the fetch phase returns, every page index [p] in
    [[0, pages)] has its URL, the search URL with [&start=] and [p * 50],
    requested exactly once, and nothing else is requested. *)
Theorem fetch_pages_each_offset_once `{World} (search : string) (pages : Z) :
  exists soups t,
    fetch_pages search pages = Ok (soups, t)
    /\ (forall p, 0 <= p < pages ->
          times_requested
            (search +:+ "&start=" +:+ str_of_int (p * max_results_per_page)) t
          = 1%nat)
    /\ (forall u, u ∈ requests t ->
          exists p, 0 <= p < pages /\ u = page_url search p)
    /\ length (requests t) = Z.to_nat pages.
Proof.
  unfold fetch_pages.
  destruct (run_tasks_requests search (completion_order (submitted pages)) [])
    as (soups & t & Hrun & Hreq).
  assert (requests t ≡ₚ page_url search <$> seqZ 0 pages) as Hperm.
  { rewrite Hreq. apply fmap_Permutation, completion_order_perm. }
  assert (NoDup (page_url search <$> seqZ 0 pages)) as Hnd.
  { apply (NoDup_fmap_2 _), NoDup_seqZ. }
  exists soups, t. split; [exact Hrun|]. split; [|split].
  - intros p Hp. unfold times_requested.
    change (search +:+ "&start=" +:+ str_of_int (p * max_results_per_page))
      with (page_url search p).
    rewrite Hperm. apply filter_eq_NoDup_length; [exact Hnd|].
    apply list_elem_of_fmap. exists p. split; [reflexivity|].
    apply elem_of_seqZ. lia.
  - intros u Hu. rewrite Hperm in Hu.
    apply list_elem_of_fmap in Hu as (p & -> & Hp).
    apply elem_of_seqZ in Hp. exists p. split; [lia | reflexivity].
  - rewrite Hperm, length_fmap, length_seqZ. reflexivity.
Qed.

Lemma fetch_pages_each_offset_once_witness :
  exists soups t,
    @fetch_pages Sample.world Sample.ca_search 2 = Ok (soups, t)
    /\ (0 <= 1 < 2)
    /\ times_requested (Sample.ca_search +:+ "&start=50") t = 1%nat.
Proof.
  destruct (@fetch_pages_each_offset_once Sample.world Sample.ca_search 2)
    as (soups & t & Hrun & Honce & _).
  exists soups, t. split; [exact Hrun|]. split; [lia|].
  apply (Honce 1). lia.
Defined.

(** ** ListingExtractor *)

Section Extraction.
Context `{World}.
Variable self : Scraper.

Lemma scrape_tags_total k s :
  scrape_tags k s
  = match find_jobCardShelf s with
    | Some cells => Ok (map strip cells, [])
    | None => Ok ([], [Log WARNING ("Unable to scrape job tags for " +:+ k)])
    end.
Proof. unfold scrape_tags, get_tags. destruct (find_jobCardShelf s); reflexivity. Qed.

Lemma scrape_post_date_total k s :
  scrape_post_date k s
  = match find_date s with
    | Some text => Ok (RelativeDate (strip text), [])
    | None =>
        Ok (NoDate,
            [Log WARNING ("Unable to scrape job post date for " +:+ k)])
    end.
Proof. unfold scrape_post_date, get_date. destruct (find_date s); reflexivity. Qed.

Lemma fix_post_date_cases job :
  fix_post_date job
  = match relative_date (post_date job) with
    | Ok d => Ok (set_post_date job (AbsoluteDate d), [])
    | Raise ValueError =>
        Ok (set_post_date job (AbsoluteDate epoch),
            [Log ERROR ("Unknown date for job " +:+ key_id job
                        +:+ ", setting to epoch date.")])
    | Raise e => Raise e
    end.
Proof.
  unfold fix_post_date, set_post_date_from_relative_date.
  destruct (relative_date (post_date job)) as [d|[]]; reflexivity.
Qed.

Lemma extract_job_required s title company location k u :
  required_info self s = Ok (title, company, location, k, u) ->
  extract_job self s
  = let* tags := scrape_tags k s in
    let* post_date := scrape_post_date k s in
    let* job := fix_post_date
                  (new_job self s title company location k u tags post_date) in
    ret (Some job).
Proof. intros Hreq. unfold extract_job. rewrite Hreq. reflexivity. Qed.

(** The required stage returns what the extractors found, in order. *)
Lemma required_info_Ok s title company location k u :
  required_info self s = Ok (title, company, location, k, u) ->
  get_title s = Ok title /\ get_company s = Ok company
  /\ get_location s = Ok location /\ get_id s = Ok k
  /\ u = get_link self k.
Proof.
  unfold required_info. intros Hreq.
  apply rbind_Ok in Hreq as (t & Ht & Hreq).
  apply rbind_Ok in Hreq as (c & Hc & Hreq).
  apply rbind_Ok in Hreq as (l & Hl & Hreq).
  apply rbind_Ok in Hreq as (i & Hi & Hreq).
  injection Hreq as -> -> -> -> <-. auto.
Qed.

(** A job that the loop body makes comes from [Job(...)] on a fragment
    whose required stage succeeded, with only its date changed since. *)
Lemma extract_job_Some s job t :
  extract_job self s = Ok (Some job, t) ->
  exists title company location k u tags pd,
    required_info self s = Ok (title, company, location, k, u)
    /\ job = new_job self s title company location k u tags pd.
Proof.
  unfold extract_job.
  destruct (required_info self s) as [[[[[title company] location] k] u]|e].
  - intros Hok. exists title, company, location, k, u.
    unfold bind in Hok.
    rewrite scrape_tags_total in Hok.
    destruct (find_jobCardShelf s); cbv beta iota in Hok;
      rewrite scrape_post_date_total in Hok;
      destruct (find_date s); cbv beta iota in Hok;
      rewrite fix_post_date_cases in Hok;
      match type of Hok with
      | context [relative_date ?pd] =>
          destruct (relative_date pd) as [d|[]]; cbn in Hok;
          try discriminate; injection Hok as <- _; eauto
      end.
  - destruct e; discriminate.
Qed.

Lemma derived_Some s job :
  derived self s = Some job ->
  get_id s = Ok (key_id job) /\ raw job = s.
Proof.
  unfold derived. destruct (extract_job self s) as [[r t]|e] eqn:He;
    [|discriminate].
  intros ->. apply extract_job_Some in He
    as (title & company & location & k & u & tags & pd & Hreq & ->).
  apply required_info_Ok in Hreq as (_ & _ & _ & Hid & _).
  split; [exact Hid | reflexivity].
Qed.

End Extraction.

(** Once the required stage of a fragment has succeeded, the body of the
    loop builds the job from what the two optional extractions found and
    hands it to the date fix-up. *)
Lemma extract_job_optional_stage `{World} (self : Scraper) (s : JobSoup)
    (title company location k u : string) :
  required_info self s = Ok (title, company, location, k, u) ->
  extract_job self s
  = match fix_post_date
            (new_job self s title company location k u
               match get_tags s with Ok found => found | Raise _ => [] end
               match get_date s with
               | Ok text => RelativeDate text
               | Raise _ => NoDate
               end) with
    | Ok (job, t) =>
        Ok (Some job,
            (match get_tags s with
             | Ok _ => []
             | Raise _ => [Log WARNING ("Unable to scrape job tags for " +:+ k)]
             end
             ++ match get_date s with
                | Ok _ => []
                | Raise _ =>
                    [Log WARNING ("Unable to scrape job post date for " +:+ k)]
                end) ++ t)
    | Raise e => Raise e
    end.
Proof.
  intros Hreq. rewrite (extract_job_required self s _ _ _ _ _ Hreq).
  unfold bind. rewrite scrape_tags_total. unfold get_tags, get_date.
  destruct (find_jobCardShelf s) as [cells|]; cbv beta iota;
    rewrite scrape_post_date_total;
    destruct (find_date s) as [text|]; cbn;
    match goal with
    | |- context [fix_post_date ?j] =>
        destruct (fix_post_date j) as [[job t]|e]; cbn;
        rewrite ?app_nil_r; reflexivity
    end.
Qed.

(** ** Aggregator *)

Section Aggregation.
Context `{World}.
Variable self : Scraper.

Lemma scrape_soups_cons s rest (d : gmap string Job) :
  scrape_soups self (s :: rest) d
  = let* r := extract_job self s in scrape_soups self rest (add_job d r).
Proof. reflexivity. Qed.

Lemma derived_with_key_cons k s rest :
  derived_with_key self k (s :: rest)
  = match derived self s with
    | Some job =>
        if decide (key_id job = k)
        then job :: derived_with_key self k rest
        else derived_with_key self k rest
    | None => derived_with_key self k rest
    end.
Proof.
  unfold derived_with_key. simpl. destruct (derived self s) as [job|];
    [|reflexivity].
  rewrite filter_cons. reflexivity.
Qed.

Lemma derived_with_key_app k l1 l2 :
  derived_with_key self k (l1 ++ l2)
  = derived_with_key self k l1 ++ derived_with_key self k l2.
Proof. unfold derived_with_key. rewrite omap_app, filter_app. reflexivity. Qed.

(** After the loop, a key holds the last job made for it, or what it
    held before the loop when no fragment made one. *)
Lemma scrape_soups_lookup soups : forall (d d' : gmap string Job) t,
  scrape_soups self soups d = Ok (d', t) ->
  forall k,
    d' !! k = match last (derived_with_key self k soups) with
              | Some job => Some job
              | None => d !! k
              end.
Proof.
  induction soups as [|s rest IH]; intros d d' t Hloop k.
  - injection Hloop as <- _. reflexivity.
  - rewrite scrape_soups_cons in Hloop.
    apply bind_Ok in Hloop as (r & t1 & t2 & He & Hrest & _).
    rewrite (IH _ _ _ Hrest k), derived_with_key_cons.
    unfold derived. rewrite He.
    destruct r as [job|]; [|reflexivity].
    destruct (decide (key_id job = k)) as [<-|Hne].
    + rewrite last_cons.
      destruct (last (derived_with_key self (key_id job) rest));
        [reflexivity|]. simpl. apply lookup_insert_eq.
    + destruct (last (derived_with_key self k rest)); [reflexivity|].
      simpl. apply lookup_insert_ne. exact Hne.
Qed.

Lemma scrape_soups_extract soups : forall (d d' : gmap string Job) t,
  scrape_soups self soups d = Ok (d', t) ->
  forall s, s ∈ soups -> exists r t', extract_job self s = Ok (r, t').
Proof.
  induction soups as [|s0 rest IH]; intros d d' t Hloop s Hs.
  - inversion Hs.
  - rewrite scrape_soups_cons in Hloop.
    apply bind_Ok in Hloop as (r & t1 & t2 & He & Hrest & _).
    apply elem_of_cons in Hs as [->|Hs]; [eauto | eapply IH; eauto].
Qed.

(** The loop raises only where the body raises on some fragment: an
    insertion under a key already there does not. *)
Lemma scrape_soups_returns soups : forall (d : gmap string Job),
  (forall s, s ∈ soups -> exists r t, extract_job self s = Ok (r, t)) ->
  exists d' t, scrape_soups self soups d = Ok (d', t).
Proof.
  induction soups as [|s rest IH]; intros d Hall.
  - eexists _, _. reflexivity.
  - rewrite scrape_soups_cons.
    destruct (Hall s) as (r & t1 & He); [left|].
    destruct (IH (add_job d r)) as (d' & t2 & Hrest).
    { intros s' Hs'. apply Hall. right. exact Hs'. }
    exists d', (t1 ++ t2). eapply bind_Ok_intro; eassumption.
Qed.

(** What holds of every job the body makes holds of every job in the
    result. *)
Lemma scrape_soups_Forall (P : Job -> Prop) soups :
  (forall s job t, extract_job self s = Ok (Some job, t) -> P job) ->
  forall (d d' : gmap string Job) t,
    map_Forall (fun _ => P) d ->
    scrape_soups self soups d = Ok (d', t) ->
    map_Forall (fun _ => P) d'.
Proof.
  intros HP. induction soups as [|s rest IH]; intros d d' t Hd Hloop.
  - injection Hloop as <- _. exact Hd.
  - rewrite scrape_soups_cons in Hloop.
    apply bind_Ok in Hloop as (r & t1 & t2 & He & Hrest & _).
    eapply IH; [|exact Hrest].
    destruct r as [job|]; [|exact Hd]. simpl.
    apply map_Forall_insert_2; [|exact Hd]. eapply HP, He.
Qed.

(** The events of the loop are those of its body on each fragment, in
    order: an insertion causes none. *)
Lemma scrape_soups_events soups : forall (d d' : gmap string Job) t,
  scrape_soups self soups d = Ok (d', t) ->
  t = concat (map (extraction_events self) soups).
Proof.
  induction soups as [|s rest IH]; intros d d' t Hloop.
  - injection Hloop as _ <-. reflexivity.
  - rewrite scrape_soups_cons in Hloop.
    apply bind_Ok in Hloop as (r & t1 & t2 & He & Hrest & ->).
    simpl. unfold extraction_events at 1. rewrite He.
    f_equal. eapply IH, Hrest.
Qed.

Lemma scrape_Ok d t :
  scrape self = Ok (d, t) ->
  exists soups t0 t1,
    scrape_job_soups self = Ok (soups, t0)
    /\ scrape_soups self soups ∅ = Ok (d, t1)
    /\ t = t0 ++ t1.
Proof.
  unfold scrape. intros Hs.
  apply bind_Ok in Hs as (soups & t0 & t1 & H0 & H1 & ->). eauto 7.
Qed.

End Aggregation.

(** C6. Once the required stage of a fragment has succeeded, the tags and
    the date text are extracted each on its own: whatever the outcome of
    either, the job is built, with the tags found or an empty list and
    with the date text found or no date, one warning is logged for each of
    the two that failed, and the job goes to the date fix-up. What the
    fix-up returns is inserted under the key of the fragment with these
    tags; it is inserted whenever the fix-up raises nothing but
    [ValueError], and in every pass that returns the result holds it
    unless a later fragment has the same key. *)
Theorem optional_stage_isolated `{World} (self : Scraper) (s : JobSoup)
    (title company location k u : string) :
  required_info self s = Ok (title, company, location, k, u) ->
  let found_tags :=
    match get_tags s with Ok found => found | Raise _ => [] end in
  let found_date :=
    match get_date s with
    | Ok text => RelativeDate text
    | Raise _ => NoDate
    end in
  let warnings :=
    match get_tags s with
    | Ok _ => []
    | Raise _ => [Log WARNING ("Unable to scrape job tags for " +:+ k)]
    end
    ++ match get_date s with
       | Ok _ => []
       | Raise _ =>
           [Log WARNING ("Unable to scrape job post date for " +:+ k)]
       end in
  let built :=
    new_job self s title company location k u found_tags found_date in
  extract_job self s
  = match fix_post_date built with
    | Ok (job, t) => Ok (Some job, warnings ++ t)
    | Raise e => Raise e
    end
  /\ (forall d,
        scrape_soups self [s] d
        = match fix_post_date built with
          | Ok (job, t) => Ok (<[k := job]> d, warnings ++ t)
          | Raise e => Raise e
          end)
  /\ (forall job t, fix_post_date built = Ok (job, t) ->
        key_id job = k /\ tags job = found_tags)
  /\ ((forall e, relative_date found_date = Raise e -> e = ValueError) ->
      exists job t,
        fix_post_date built = Ok (job, t)
        /\ forall d, scrape_soups self [s] d = Ok (<[k := job]> d, warnings ++ t))
  /\ (forall before after d' t',
        scrape_soups self (before ++ s :: after) ∅ = Ok (d', t') ->
        exists job t,
          fix_post_date built = Ok (job, t)
          /\ tags job = found_tags
          /\ (derived_with_key self k after = [] -> d' !! k = Some job)).
Proof.
  intros Hreq found_tags found_date warnings built.
  pose proof (extract_job_optional_stage self s _ _ _ _ _ Hreq) as He.
  fold found_tags found_date in He. fold built in He. fold warnings in He.
  assert (forall job t, fix_post_date built = Ok (job, t) ->
            key_id job = k /\ tags job = found_tags) as Hfix.
  { intros job t Hf. rewrite fix_post_date_cases in Hf.
    destruct (relative_date (post_date built)) as [d|[]];
      try discriminate Hf; injection Hf as <- _; split; reflexivity. }
  assert (forall d,
            scrape_soups self [s] d
            = match fix_post_date built with
              | Ok (job, t) => Ok (<[k := job]> d, warnings ++ t)
              | Raise e => Raise e
              end) as Hloop.
  { intros d. rewrite scrape_soups_cons, He.
    destruct (fix_post_date built) as [[job t]|e] eqn:Hf; [|reflexivity].
    destruct (Hfix job t eq_refl) as [<- _]. cbn.
    rewrite app_nil_r. reflexivity. }
  split; [exact He|]. split; [exact Hloop|]. split; [exact Hfix|]. split.
  - intros Honly.
    assert (exists job t, fix_post_date built = Ok (job, t))
      as (job & t & Hf).
    { rewrite fix_post_date_cases. change (post_date built) with found_date.
      destruct (relative_date found_date) as [d|e] eqn:Hd; [eauto|].
      rewrite (Honly e eq_refl). eauto. }
    exists job, t. split; [exact Hf|].
    intros d. rewrite Hloop, Hf. reflexivity.
  - intros before after d' t' Hpass.
    destruct (scrape_soups_extract self _ _ _ _ Hpass s) as (r & t & Hr).
    { apply elem_of_app. right. left. }
    rewrite He in Hr.
    destruct (fix_post_date built) as [[job tf]|e] eqn:Hf; [|discriminate].
    injection Hr as <- _.
    exists job, tf. split; [reflexivity|].
    destruct (Hfix job tf eq_refl) as [Hkey Htags].
    split; [exact Htags|]. intros Hafter.
    rewrite (scrape_soups_lookup self _ _ _ _ Hpass k).
    rewrite derived_with_key_app, derived_with_key_cons, Hafter.
    unfold derived. rewrite He.
    rewrite decide_True by exact Hkey.
    rewrite last_snoc. reflexivity.
Qed.

Lemma optional_stage_isolated_witness :
  (@required_info Sample.world Sample.ca Sample.odd_date
   = Ok ("Tester", "Hooli", "Cambridge, ON", "k4",
         "http://www.indeed.ca/viewjob?jk=k4")
   /\ get_tags Sample.odd_date = Raise AttributeError
   /\ get_date Sample.odd_date = Ok "last Tuesday-ish"
   /\ exists job,
        @scrape_soups Sample.world Sample.ca [Sample.odd_date] ∅
        = Ok (<["k4" := job]> ∅,
              [Log WARNING "Unable to scrape job tags for k4";
               Log ERROR "Unknown date for job k4, setting to epoch date."])
        /\ tags job = [])
  /\ (@required_info Sample.lenient_world Sample.ca Sample.bare
      = Ok ("Driver", "Vandelay", "Fergus, ON", "k7",
            "http://www.indeed.ca/viewjob?jk=k7")
      /\ get_tags Sample.bare = Raise AttributeError
      /\ get_date Sample.bare = Raise AttributeError
      /\ exists job,
           @scrape_soups Sample.lenient_world Sample.ca [Sample.bare] ∅
           = Ok (<["k7" := job]> ∅,
                 [Log WARNING "Unable to scrape job tags for k7";
                  Log WARNING "Unable to scrape job post date for k7";
                  Log ERROR "Unknown date for job k7, setting to epoch date."])
           /\ tags job = []
           /\ post_date job = AbsoluteDate epoch).
Proof.
  split.
  - destruct (@optional_stage_isolated Sample.world Sample.ca Sample.odd_date
                "Tester" "Hooli" "Cambridge, ON" "k4"
                "http://www.indeed.ca/viewjob?jk=k4" eq_refl)
      as (_ & _ & Hfix & Hemit & _).
    destruct Hemit as (job & t & Hf & Hloop).
    { intros e He. vm_compute in He. congruence. }
    split; [reflexivity|]. split; [reflexivity|]. split; [reflexivity|].
    exists job. split.
    + rewrite (Hloop ∅). vm_compute in Hf. injection Hf as _ <-. reflexivity.
    + apply (Hfix job t Hf).
  - destruct (@optional_stage_isolated Sample.lenient_world Sample.ca
                Sample.bare "Driver" "Vandelay" "Fergus, ON" "k7"
                "http://www.indeed.ca/viewjob?jk=k7" eq_refl)
      as (_ & _ & Hfix & Hemit & _).
    destruct Hemit as (job & t & Hf & Hloop).
    { intros e He. vm_compute in He. congruence. }
    split; [reflexivity|]. split; [reflexivity|]. split; [reflexivity|].
    exists job. split; [|split].
    + rewrite (Hloop ∅). vm_compute in Hf. injection Hf as _ <-. reflexivity.
    + apply (Hfix job t Hf).
    + vm_compute in Hf. injection Hf as <- _. reflexivity.
Defined.

(** C1. Whatever fragments the fetch phase hands to the loop, the result
    of [scrape] holds under each key the job made from the last fragment
    processed that yields a job with this key, and no other; the events of
    the pass are those of the fetch phase and of the loop body on each
    fragment, none for an insertion; and [scrape] returns whenever the loop
    body returns on every fragment, two fragments with one key included. A
    job made from a fragment bears the id that [get_id] reads off it. *)
Theorem scrape_last_write_wins `{World} (self : Scraper)
    (soups : list JobSoup) (t0 : list event) :
  scrape_job_soups self = Ok (soups, t0) ->
  (forall d t, scrape self = Ok (d, t) ->
     (forall k, d !! k = last (derived_with_key self k soups))
     /\ t = t0 ++ concat (map (extraction_events self) soups))
  /\ ((forall s, s ∈ soups -> exists r t, extract_job self s = Ok (r, t)) ->
      exists d t, scrape self = Ok (d, t))
  /\ (forall s job, s ∈ soups -> derived self s = Some job ->
        get_id s = Ok (key_id job) /\ raw job = s).
Proof.
  intros Hfetch. split; [|split].
  - intros d t Hs.
    apply scrape_Ok in Hs as (soups' & t0' & t1 & Hfetch' & Hloop & ->).
    rewrite Hfetch in Hfetch'. injection Hfetch' as <- <-.
    split.
    + intros k.
      rewrite (scrape_soups_lookup self soups _ _ _ Hloop k), lookup_empty.
      destruct (last (derived_with_key self k soups)); reflexivity.
    + f_equal. eapply scrape_soups_events, Hloop.
  - intros Hall.
    destruct (scrape_soups_returns self soups ∅ Hall) as (d & t1 & Hloop).
    exists d, (t0 ++ t1). unfold scrape.
    eapply bind_Ok_intro; eassumption.
  - intros s job _. apply derived_Some.
Qed.

Lemma scrape_last_write_wins_witness :
  exists t0 d t,
    @scrape_job_soups Sample.world Sample.usa
    = Ok ([Sample.engineer; Sample.engineer_again; Sample.analyst], t0)
    /\ @scrape Sample.world Sample.usa = Ok (d, t)
    /\ d !! "abc123" = @derived Sample.world Sample.usa Sample.engineer_again
    /\ (title <$> d !! "abc123") = Some "Senior Data Engineer".
Proof.
  assert (exists t0, @scrape_job_soups Sample.world Sample.usa
            = Ok ([Sample.engineer; Sample.engineer_again; Sample.analyst], t0))
    as [t0 Hfetch].
  { eexists. vm_compute. reflexivity. }
  destruct (@scrape_last_write_wins Sample.world Sample.usa _ _ Hfetch)
    as (Hlast & Hret & _).
  destruct Hret as (d & t & Hs).
  { intros s Hs.
    rewrite !elem_of_cons, elem_of_nil in Hs.
    destruct Hs as [->|[->|[->|[]]]]; eexists _, _; reflexivity. }
  exists t0, d, t. split; [exact Hfetch|]. split; [exact Hs|].
  destruct (Hlast d t Hs) as [Hk _]. specialize (Hk "abc123").
  split; rewrite Hk; vm_compute; reflexivity.
Defined.

(** C8. Every job in the result of [scrape] has the status [NEW], an empty
    description, the keywords joined with [+] as its query, the provider
    [indeed] and the locale of the scraper. *)
Theorem scrape_record_assembly `{World} (self : Scraper)
    (d : gmap string Job) (t : list event) (k : string) (job : Job) :
  scrape self = Ok (d, t) ->
  d !! k = Some job ->
  status job = NEW
  /\ description job = ""
  /\ query job = join "+" (keywords (search_terms self))
  /\ provider job = "indeed"
  /\ locale job = self_locale self.
Proof.
  intros Hs Hk.
  apply scrape_Ok in Hs as (soups & t0 & t1 & _ & Hloop & _).
  revert k job Hk.
  change (map_Forall (fun (_ : string) job =>
            status job = NEW /\ description job = ""
            /\ query job = join "+" (keywords (search_terms self))
            /\ provider job = "indeed" /\ locale job = self_locale self) d).
  eapply (scrape_soups_Forall self); [| |exact Hloop].
  - intros s job t' He.
    apply extract_job_Some in He as (? & ? & ? & ? & ? & ? & ? & _ & ->).
    repeat split.
  - apply map_Forall_empty.
Qed.

Lemma scrape_record_assembly_witness :
  exists d t job,
    @scrape Sample.world Sample.ca = Ok (d, t)
    /\ d !! "k4" = Some job
    /\ status job = NEW
    /\ description job = ""
    /\ query job = "python+data"
    /\ provider job = "indeed"
    /\ locale job = CANADA_ENGLISH.
Proof.
  assert (exists d t job,
            @scrape Sample.world Sample.ca = Ok (d, t) /\ d !! "k4" = Some job)
    as (d & t & job & Hs & Hk).
  { eexists _, _, _. split; vm_compute; reflexivity. }
  exists d, t, job. split; [exact Hs|]. split; [exact Hk|].
  apply (@scrape_record_assembly Sample.world Sample.ca d t "k4" job Hs Hk).
Defined.

(** ** DateNormalizer failure *)

(** C5. When the required stage of a fragment has succeeded and the date
    fix-up raises [ValueError] on what the date extraction left in
    [post_date], the loop body still makes the job, with the epoch date
    1970-01-01 as its [post_date], logs an error naming the key, and the
    loop inserts the job under its [key_id]; the result of a pass holds it
    there unless a later fragment yields a job with the same key. *)
Theorem date_failure_keeps_record `{World} (self : Scraper) (s : JobSoup)
    (title company location k u : string) (tags : list string)
    (pd : PostDate) (t1 t2 : list event) :
  required_info self s = Ok (title, company, location, k, u) ->
  scrape_tags k s = Ok (tags, t1) ->
  scrape_post_date k s = Ok (pd, t2) ->
  relative_date pd = Raise ValueError ->
  let job :=
    new_job self s title company location k u tags
      (AbsoluteDate (mkDatetime 1970 1 1)) in
  let t :=
    t1 ++ t2 ++ [Log ERROR ("Unknown date for job " +:+ k
                            +:+ ", setting to epoch date.")] in
  extract_job self s = Ok (Some job, t)
  /\ (forall d, scrape_soups self [s] d = Ok (<[k := job]> d, t))
  /\ (forall before after d' t',
        scrape_soups self (before ++ s :: after) ∅ = Ok (d', t') ->
        derived_with_key self k after = [] ->
        d' !! k = Some job).
Proof.
  intros Hreq Htags Hdate Hfail job t.
  assert (extract_job self s = Ok (Some job, t)) as He.
  { rewrite (extract_job_required self s _ _ _ _ _ Hreq).
    unfold bind. rewrite Htags, Hdate, fix_post_date_cases.
    cbn [post_date new_job]. rewrite Hfail. cbn.
    rewrite ?app_nil_r. reflexivity. }
  split; [exact He|]. split.
  - intros d. rewrite scrape_soups_cons, He. cbn.
    rewrite app_nil_r. reflexivity.
  - intros before after d' t' Hloop Hafter.
    rewrite (scrape_soups_lookup self _ _ _ _ Hloop k).
    rewrite derived_with_key_app, derived_with_key_cons, Hafter.
    unfold derived. rewrite He.
    rewrite decide_True by reflexivity.
    rewrite last_snoc. reflexivity.
Qed.

Lemma date_failure_keeps_record_witness :
  let job :=
    new_job Sample.ca Sample.odd_date "Tester" "Hooli" "Cambridge, ON" "k4"
      "http://www.indeed.ca/viewjob?jk=k4" [] (AbsoluteDate (mkDatetime 1970 1 1)) in
  @relative_date Sample.world (RelativeDate "last Tuesday-ish") = Raise ValueError
  /\ @extract_job Sample.world Sample.ca Sample.odd_date
     = Ok (Some job,
           [Log WARNING "Unable to scrape job tags for k4";
            Log ERROR "Unknown date for job k4, setting to epoch date."])
  /\ exists d t,
       @scrape Sample.world Sample.ca = Ok (d, t) /\ d !! "k4" = Some job.
Proof.
  intros job.
  destruct (@date_failure_keeps_record Sample.world Sample.ca Sample.odd_date
              "Tester" "Hooli" "Cambridge, ON" "k4"
              "http://www.indeed.ca/viewjob?jk=k4" []
              (RelativeDate "last Tuesday-ish")
              [Log WARNING "Unable to scrape job tags for k4"] []
              eq_refl eq_refl eq_refl eq_refl) as (He & _ & _).
  split; [reflexivity|]. split; [exact He|].
  eexists _, _. split; vm_compute; reflexivity.
Defined.

(** ** Required-field policy *)

(** A fragment without a title, a company or a location is dropped: the
    loop body makes no job, logs one error, and the loop goes on. *)
Lemma missing_text_field_dropped `{World} (self : Scraper) (s : JobSoup) :
  find_jobTitle s = None \/ find_company s = None \/ find_location s = None ->
  extract_job self s
  = Ok (None, [Log ERROR "Unable to scrape minimum-required job info!"])
  /\ forall rest d,
       scrape_soups self (s :: rest) d
       = let* _ := logger ERROR "Unable to scrape minimum-required job info!" in
         scrape_soups self rest d.
Proof.
  intros Hmiss.
  assert (required_info self s = Raise AttributeError) as Hreq.
  { unfold required_info, get_title, get_company, get_location.
    destruct (find_jobTitle s); [|reflexivity].
    destruct (find_company s); [|reflexivity].
    destruct (find_location s); [|reflexivity].
    destruct Hmiss as [|[|]]; discriminate. }
  assert (extract_job self s
          = Ok (None, [Log ERROR "Unable to scrape minimum-required job info!"]))
    as He.
  { unfold extract_job. rewrite Hreq. reflexivity. }
  split; [exact He|].
  intros rest d. rewrite scrape_soups_cons, He. reflexivity.
Qed.

Example missing_company_dropped :
  @extract_job Sample.world Sample.ca Sample.no_company
  = Ok (None, [Log ERROR "Unable to scrape minimum-required job info!"])
  /\ @scrape_soups Sample.world Sample.ca [Sample.no_company] ∅
     = Ok (∅, [Log ERROR "Unable to scrape minimum-required job info!"]).
Proof. split; vm_compute; reflexivity. Qed.

Example missing_date_left_unset :
  scrape_post_date "k6" Sample.no_date
  = Ok (NoDate, [Log WARNING "Unable to scrape job post date for k6"])
  /\ scrape_tags "k6" Sample.no_date = Ok (["Contract"], []).
Proof. split; reflexivity. Qed.

(** A fragment with the three text fields and no id in its save-job link
    (or no such link) makes [get_id] raise [IndexError], which the handler
    of the required stage does not catch: the loop stops there. *)
Lemma missing_id_raises `{World} (self : Scraper) (s : JobSoup) :
  is_Some (find_jobTitle s) -> is_Some (find_company s) ->
  is_Some (find_location s) ->
  findall id_regex (str_of_found (find_save_job_link s)) = [] ->
  extract_job self s = Raise IndexError
  /\ forall rest d, scrape_soups self (s :: rest) d = Raise IndexError.
Proof.
  intros [a Ha] [b Hb] [c Hc] Hid.
  assert (extract_job self s = Raise IndexError) as He.
  { unfold extract_job, required_info, get_title, get_company, get_location,
      get_id. rewrite Ha, Hb, Hc, Hid. reflexivity. }
  split; [exact He|].
  intros rest d. rewrite scrape_soups_cons, He. reflexivity.
Qed.

(** C2, at a fragment the code cannot drop. The listing [Sample.no_id] has
    a title, a company and a location and lacks the save-job link; [get_id]
    raises [IndexError] on it, and so do the loop body and the loop over
    any fragment list that holds it after fragments that pass. *)
Theorem scrape_missing_id_aborts :
  get_title Sample.no_id = Ok "Writer"
  /\ get_company Sample.no_id = Ok "Umbrella"
  /\ get_location Sample.no_id = Ok "Elora, ON"
  /\ get_id Sample.no_id = Raise IndexError
  /\ @extract_job Sample.world Sample.ca Sample.no_id = Raise IndexError
  /\ @scrape_soups Sample.world Sample.ca
       [Sample.analyst; Sample.no_id; Sample.engineer] ∅
     = Raise IndexError.
Proof. repeat split; vm_compute; reflexivity. Qed.

(** Four fragments on two pages, one of them without a title: three jobs. *)
Example scrape_four_fragments_one_without_title :
  exists soups t0 d t,
    @scrape_job_soups Sample.world Sample.ca = Ok (soups, t0)
    /\ length soups = 4%nat
    /\ @scrape Sample.world Sample.ca = Ok (d, t)
    /\ size d = 3%nat
    /\ d !! "k3" = None.
Proof.
  eexists _, _, _, _. repeat split; vm_compute; reflexivity.
Qed.

(** ** SecondaryDescriptionFetcher *)

(** C9, as the code has it. [get_full_description] requests the URL of the
    job once, returns normally, and assigns [short_description]: the
    stripped text of the description element, or the empty string, with a
    warning, when the page has no such element. Apart from what
    [clean_strings] does, no other attribute changes. *)
Theorem get_full_description_short_description `{World} (job : Job) :
  let found :=
    find_jobDescriptionText (BeautifulSoup (session_get (url job))) in
  get_full_description job
  = Ok (clean_strings
          (set_short_desc job
             (Some match found with Some el => strip el | None => "" end)),
        [Log INFO ("getting indeed page: " +:+ url job); Request (url job)]
        ++ match found with
           | Some _ => []
           | None =>
               [Log WARNING ("Unable to load description for: " +:+ url job)]
           end).
Proof.
  unfold get_full_description, scrape_description, get. cbn.
  destruct (find_jobDescriptionText (BeautifulSoup (session_get (url job))));
    reflexivity.
Qed.

(** The claim of C9 names the wrong attribute: on a page without the
    description element the call returns with [short_description] empty
    and [description] as it was. *)
Lemma get_full_description_leaves_description :
  find_jobDescriptionText
    (@BeautifulSoup Sample.world
       (@session_get Sample.world (url Sample.stale_job))) = None
  /\ exists job t,
       @get_full_description Sample.world Sample.stale_job = Ok (job, t)
       /\ requests t = [url Sample.stale_job]
       /\ short_description job = Some ""
       /\ description job = "An earlier description"
       /\ description job <> "".
Proof.
  split; [reflexivity|].
  eexists _, _. split; [reflexivity|].
  repeat split. discriminate.
Qed.

Example get_full_description_found :
  exists job t,
    @get_full_description Sample.world
      (new_job Sample.ca Sample.engineer "Data Engineer" "Acme" "Waterloo, ON"
         "abc123" "http://www.indeed.ca/viewjob?jk=abc123" []
         (AbsoluteDate Sample.today))
    = Ok (job, t)
    /\ short_description job = Some "We build pipelines."
    /\ description job = "".
Proof. eexists _, _. repeat split. Qed.

(** * Further properties of the code *)

(** ** RadiusQuantizer *)

(** X1. The result of [convert_radius] is always one of 0, 5, 10, 15, 25,
    50 and 100 (never the 200 that its docstring lists), and the radii it
    leaves unchanged are exactly these seven. *)
Theorem convert_radius_values (r : Z) :
  convert_radius r ∈ radius_values
  /\ (convert_radius r = r <-> r ∈ radius_values).
Proof.
  unfold radius_values. rewrite !elem_of_cons, !elem_of_nil.
  destruct (convert_radius_cases r)
    as [[H ->]|[[H ->]|[[H ->]|[[H ->]|[[H ->]|[[H ->]|[H ->]]]]]]]; lia.
Qed.

Lemma convert_radius_values_witness :
  convert_radius 200 ∈ radius_values
  /\ convert_radius 200 = 100
  /\ (convert_radius 25 = 25 <-> 25 ∈ radius_values).
Proof.
  split; [apply (convert_radius_values 200)|].
  split; [reflexivity | apply (convert_radius_values 25)].
Defined.

(** X2. [convert_radius] is monotone: a larger radius never gets a smaller
    bucket. *)
Theorem convert_radius_monotone (r1 r2 : Z) :
  r1 <= r2 -> convert_radius r1 <= convert_radius r2.
Proof.
  intros Hle.
  destruct (convert_radius_cases r1)
    as [[H1 ->]|[[H1 ->]|[[H1 ->]|[[H1 ->]|[[H1 ->]|[[H1 ->]|[H1 ->]]]]]]];
    destruct (convert_radius_cases r2)
      as [[H2 ->]|[[H2 ->]|[[H2 ->]|[[H2 ->]|[[H2 ->]|[[H2 ->]|[H2 ->]]]]]]];
    lia.
Qed.

Lemma convert_radius_monotone_witness :
  9 <= 26 /\ convert_radius 9 <= convert_radius 26.
Proof.
  split; [lia | apply (convert_radius_monotone 9 26); lia].
Defined.

(** X3. [convert_radius] rounds down: for a non-negative radius the result
    is the largest of the seven values that does not exceed it, so a
    radius just below a boundary (24, 49, 99) goes to the bucket below and
    not to the nearest one. *)
Theorem convert_radius_rounds_down (r : Z) :
  0 <= r ->
  convert_radius r <= r
  /\ forall b, b ∈ radius_values -> b <= r -> b <= convert_radius r.
Proof.
  intros Hr. split.
  - destruct (convert_radius_cases r)
      as [[H ->]|[[H ->]|[[H ->]|[[H ->]|[[H ->]|[[H ->]|[H ->]]]]]]]; lia.
  - intros b Hb Hle. unfold radius_values in Hb.
    rewrite !elem_of_cons, elem_of_nil in Hb.
    destruct (convert_radius_cases r)
      as [[H ->]|[[H ->]|[[H ->]|[[H ->]|[[H ->]|[[H ->]|[H ->]]]]]]]; lia.
Qed.

Lemma convert_radius_rounds_down_witness :
  0 <= 24 /\ convert_radius 24 <= 24
  /\ (15 ∈ radius_values /\ 15 <= 24 /\ 15 <= convert_radius 24)
  /\ convert_radius 24 <> 25.
Proof.
  destruct (convert_radius_rounds_down 24 ltac:(lia)) as [Hle Hmax].
  assert (15 ∈ radius_values) as Hmem.
  { unfold radius_values. do 3 right. left. }
  split; [lia|]. split; [exact Hle|].
  split; [|vm_compute; discriminate].
  split; [exact Hmem|]. split; [lia|].
  apply (Hmax 15 Hmem). lia.
Defined.

(** ** PageLocator *)

Lemma round_half_even_nonneg a b :
  0 <= a -> 0 < b -> 0 <= round_half_even a b.
Proof.
  intros Ha Hb.
  pose proof (round_half_even_near a b Hb) as Hnear.
  destruct (Z.le_gt_cases 0 (round_half_even a b)) as [|Hneg]; [assumption|].
  nia.
Qed.

Lemma true_divide_ceil_nonneg a b x :
  0 <= a -> 0 < b -> true_divide a b = Ok x -> 0 <= ceil x.
Proof.
  intros Ha Hb. unfold true_divide.
  destruct (Z.eqb_spec b 0); [lia|].
  destruct (Z.eqb_spec a 0) as [->|Ha0].
  { intros [= <-]. vm_compute. discriminate. }
  rewrite (Z.sgn_pos a), (Z.sgn_pos b), (Z.abs_eq a), (Z.abs_eq b) by lia.
  set (e := Z.max (quotient_exponent a b - 52) (-1074)).
  set (m := if 0 <=? e then round_half_even a (b * 2 ^ e)
            else round_half_even (a * 2 ^ (- e)) b).
  assert (0 <= m) as Hm.
  { unfold m. destruct (Z.leb_spec 0 e).
    - apply round_half_even_nonneg; [lia|].
      apply Z.mul_pos_pos; [lia|]. apply Z.pow_pos_nonneg; lia.
    - apply round_half_even_nonneg; [|lia].
      apply Z.mul_nonneg_nonneg; [lia|]. apply Z.pow_nonneg. lia. }
  destruct ((971 <? e) || ((e =? 971) && (m =? 2 ^ 53))); [discriminate|].
  intros [= <-]. unfold ceil. cbn [fexp fmant].
  destruct (Z.leb_spec 0 e).
  - apply Z.mul_nonneg_nonneg; [lia|]. apply Z.pow_nonneg. lia.
  - assert (0 < 2 ^ (- e)) by (apply Z.pow_pos_nonneg; lia).
    assert (- (1 * 1 * m) / 2 ^ (- e) <= 0); [|lia].
    apply Z.div_le_upper_bound; lia.
Qed.


(** X4. Whatever the result count, a page count returned with a non-zero
    [max_pages] never exceeds [max_pages]; it is never negative unless
    [max_pages] is, and a negative [max_pages] is returned as it is. *)
Theorem get_num_pages_to_scrape_capped (soup_base : PageSoup)
    (max_pages pages : Z) :
  get_num_pages_to_scrape soup_base max_pages = Ok pages ->
  (max_pages <> 0 -> pages <= max_pages)
  /\ (0 <= max_pages -> 0 <= pages)
  /\ (max_pages < 0 -> pages = max_pages).
Proof.
  unfold get_num_pages_to_scrape. intros Hget.
  apply rbind_Ok in Hget as (n & Hcount & Hpages).
  pose proof (result_count_nonneg _ _ Hcount) as Hn.
  unfold num_pages_of_count in Hpages.
  apply rbind_Ok in Hpages as (q & Hq & Hpages).
  pose proof (true_divide_ceil_nonneg n 50 q Hn ltac:(lia) Hq) as Hceil.
  destruct (Z.eqb_spec max_pages 0) as [->|Hne].
  - injection Hpages as <-. lia.
  - destruct (Z.ltb_spec (ceil q) max_pages); injection Hpages as <-; lia.
Qed.

Lemma get_num_pages_to_scrape_capped_witness :
  get_num_pages_to_scrape Sample.huge_page 7 = Ok 7
  /\ (7 <> 0 /\ 7 <= 7)
  /\ get_num_pages_to_scrape Sample.page_237 (-2) = Ok (-2).
Proof.
  assert (get_num_pages_to_scrape Sample.huge_page 7 = Ok 7) as H7.
  { vm_compute. reflexivity. }
  destruct (get_num_pages_to_scrape_capped Sample.huge_page 7 7 H7)
    as (Hcap & _ & _).
  split; [exact H7|]. split; [split; [lia | apply Hcap; lia]|].
  vm_compute. reflexivity.
Defined.

Lemma span_all_chars p s pre rest :
  span p s = (pre, rest) -> all_chars p pre = true.
Proof.
  revert pre rest. induction s as [|c s IH]; simpl; intros pre rest Hs.
  - injection Hs as <- _. reflexivity.
  - destruct (p c) eqn:Hc.
    + destruct (span p s) as [pre' rest'] eqn:Hs'.
      injection Hs as <- _. simpl. rewrite Hc. eapply IH. reflexivity.
    + injection Hs as <- _. reflexivity.
Qed.

Lemma findall_from_groups (match_here : string -> option (string * nat))
    (P : string -> Prop) :
  (forall s g len, match_here s = Some (g, len) -> P g) ->
  forall s skip g, g ∈ findall_from match_here skip s -> P g.
Proof.
  intros Hm. induction s as [|c s IH]; simpl; intros skip g Hg.
  - inversion Hg.
  - destruct skip as [|k]; [|eauto].
    destruct (match_here (String c s)) as [[g' len]|] eqn:Hhere; [|eauto].
    apply elem_of_cons in Hg as [->|Hg]; eauto.
Qed.





(** A count of 4301 digits: [int] refuses it. *)
Example get_num_pages_to_scrape_too_many_digits :
  get_num_pages_to_scrape
    (Sample.results_page
       ("Page 1 of " +:+ string_of_list_ascii (repeat "7"%char 4301)
        +:+ " jobs") []) 0
  = Raise ValueError.
Proof. vm_compute. reflexivity. Qed.

(** ** Orchestrator and PageFetcher *)

Lemma lift_Ok {A : Type} (c : result A) a t :
  lift c = Ok (a, t) -> c = Ok a /\ t = [].
Proof. destruct c; simpl; [intros [= -> <-]; auto | discriminate]. Qed.

Lemma bind_Raise {A B : Type} (c : M A) (k : A -> M B) e :
  c = Raise e -> bind c k = Raise e.
Proof. intros ->. reflexivity. Qed.

Lemma bind_Ok_Raise {A B : Type} (c : M A) (k : A -> M B) a t e :
  c = Ok (a, t) -> k a = Raise e -> bind c k = Raise e.
Proof. intros -> Hk. unfold bind. rewrite Hk. reflexivity. Qed.

Lemma get_search_url_get `{World} (self : Scraper) :
  exists search, get_search_url self "get" = Ok search.
Proof. unfold get_search_url. rewrite decide_True by reflexivity. eauto. Qed.

(** X6. A failure of the page count aborts the pass: when
    [get_num_pages_to_scrape] raises on the first page, [scrape] raises
    the same exception and returns no jobs. *)
Theorem scrape_page_count_failure `{World} (self : Scraper)
    (search : string) (e : exn) :
  get_search_url self "get" = Ok search ->
  get_num_pages_to_scrape (BeautifulSoup (session_get search)) 0 = Raise e ->
  scrape self = Raise e.
Proof.
  intros Hurl Hraise. unfold scrape. apply bind_Raise.
  unfold scrape_job_soups.
  eapply bind_Ok_Raise; [rewrite Hurl; reflexivity|].
  eapply bind_Ok_Raise; [reflexivity|].
  apply bind_Raise. rewrite Hraise. reflexivity.
Qed.

Lemma scrape_page_count_failure_witness :
  let self :=
    mkScraper IndeedScraperCAEng (mkSearchTerms [] "" "" "" 0 0 true) in
  let search :=
    "https://www.indeed.ca/jobs?q=&l=%2C+&radius=0&limit=50&filter=1" in
  @get_search_url Sample.world self "get" = Ok search
  /\ get_num_pages_to_scrape
       (@BeautifulSoup Sample.world (@session_get Sample.world search)) 0
     = Raise AttributeError
  /\ @scrape Sample.world self = Raise AttributeError.
Proof.
  intros self search.
  split; [reflexivity|]. split; [reflexivity|].
  apply (@scrape_page_count_failure Sample.world self search); reflexivity.
Defined.

Lemma search_page_for_job_soups_Ok `{World} search page l :
  search_page_for_job_soups search page l
  = Ok (l ++ page_job_soups search page,
        [Log INFO ("getting indeed page " +:+ str_of_int page +:+ " : "
                   +:+ page_url search page);
         Request (page_url search page)]).
Proof. reflexivity. Qed.

Lemma run_tasks_soups `{World} search tasks : forall l,
  exists t,
    run_tasks search tasks l
    = Ok (l ++ (tasks ≫= page_job_soups search), t)
    /\ requests t = page_url search <$> tasks.
Proof.
  induction tasks as [|page rest IH]; intros l.
  - exists []. split; [|reflexivity]. simpl. rewrite app_nil_r. reflexivity.
  - change (run_tasks search (page :: rest) l)
      with (bind (search_page_for_job_soups search page l)
                 (run_tasks search rest)).
    destruct (IH (l ++ page_job_soups search page)) as (t2 & H2 & Hr2).
    eexists. split.
    + eapply bind_Ok_intro; [apply search_page_for_job_soups_Ok|].
      rewrite H2, <- app_assoc. reflexivity.
    + rewrite requests_app, Hr2. reflexivity.
Qed.

(** X7. The fetch phase never raises and loses or repeats no fragment: it
    returns the fragments of the pages joined in the order in which the
    tasks complete, each page's fragments in page order, which is a
    permutation of the fragments of pages 0 to [pages - 1]; for a page
    count of zero or less it requests nothing and returns no fragment. *)
Theorem fetch_pages_fragments `{World} (search : string) (pages : Z) :
  exists t,
    fetch_pages search pages
    = Ok (completion_order (submitted pages) ≫= page_job_soups search, t)
    /\ (completion_order (submitted pages) ≫= page_job_soups search)
       ≡ₚ (seqZ 0 pages ≫= page_job_soups search)
    /\ (pages <= 0 -> fetch_pages search pages = Ok ([], [])).
Proof.
  unfold fetch_pages.
  destruct (run_tasks_soups search (completion_order (submitted pages)) [])
    as (t & Hrun & _).
  exists t. split; [exact Hrun|]. split.
  - apply bind_Permutation, completion_order_perm.
  - intros Hle. unfold submitted.
    assert (seqZ 0 pages = []) as Hnil.
    { apply length_zero_iff_nil. rewrite length_seqZ. lia. }
    rewrite Hnil.
    pose proof (completion_order_perm []) as Hperm.
    apply Permutation_nil_r in Hperm. rewrite Hperm. reflexivity.
Qed.

Lemma fetch_pages_fragments_witness :
  -3 <= 0
  /\ @fetch_pages Sample.world Sample.ca_search (-3) = Ok ([], [])
  /\ exists t,
       @fetch_pages Sample.world Sample.ca_search 2
       = Ok ([Sample.analyst; Sample.odd_date; Sample.engineer;
              Sample.no_title], t).
Proof.
  destruct (@fetch_pages_fragments Sample.world Sample.ca_search (-3))
    as (_ & _ & _ & Hnone).
  destruct (@fetch_pages_fragments Sample.world Sample.ca_search 2)
    as (t & Hrun & _).
  split; [lia|]. split; [apply Hnone; lia|].
  exists t. exact Hrun.
Defined.

Lemma extraction_events_requests `{World} (self : Scraper) (s : JobSoup) :
  requests (extraction_events self s) = [].
Proof.
  unfold extraction_events, extract_job.
  destruct (required_info self s) as [[[[[title company] location] k] u]|[]];
    try reflexivity.
  unfold bind. rewrite scrape_tags_total.
  destruct (find_jobCardShelf s); cbv beta iota;
    rewrite scrape_post_date_total;
    destruct (find_date s); cbv beta iota;
    rewrite fix_post_date_cases;
    match goal with
    | |- context [relative_date ?pd] =>
        destruct (relative_date pd) as [d|[]]; reflexivity
    end.
Qed.

Lemma requests_concat_nil (l : list (list event)) :
  Forall (fun t => requests t = []) l -> requests (concat l) = [].
Proof.
  induction 1 as [|t l Ht _ IH]; [reflexivity|].
  simpl. rewrite requests_app, Ht, IH. reflexivity.
Qed.

(** X8. A pass that returns has sent one request for the search URL,
    first, and one for each page URL, and no other: extracting the jobs
    and aggregating them requests nothing. *)
Theorem scrape_requests `{World} (self : Scraper)
    (d : gmap string Job) (t : list event) :
  scrape self = Ok (d, t) ->
  exists search pages,
    get_search_url self "get" = Ok search
    /\ get_num_pages_to_scrape (BeautifulSoup (session_get search)) 0
       = Ok pages
    /\ head (requests t) = Some search
    /\ requests t ≡ₚ search :: (page_url search <$> seqZ 0 pages)
    /\ length (requests t) = S (Z.to_nat pages).
Proof.
  intros Hs.
  apply scrape_Ok in Hs as (soups & t0 & t1 & Hfetch & Hloop & ->).
  unfold scrape_job_soups in Hfetch.
  apply bind_Ok in Hfetch as (search & ta & tr & Hurl & Hfetch & ->).
  apply lift_Ok in Hurl as [Hurl ->].
  apply bind_Ok in Hfetch as (html & tb & tr' & Hget & Hfetch & ->).
  injection Hget as <- <-.
  apply bind_Ok in Hfetch as (pages & tc & tr & Hpages & Hfetch & ->).
  apply lift_Ok in Hpages as [Hpages ->].
  apply bind_Ok in Hfetch as ([] & td & te & Hlog & Hfetch & ->).
  injection Hlog as <-.
  unfold fetch_pages in Hfetch.
  destruct (run_tasks_soups search (completion_order (submitted pages)) [])
    as (te' & Hrun & Hreq).
  rewrite Hrun in Hfetch. injection Hfetch as _ <-.
  assert (requests t1 = []) as Hloop_req.
  { rewrite (scrape_soups_events self soups _ _ _ Hloop).
    apply requests_concat_nil, Forall_forall.
    intros x Hx. apply list_elem_of_In, in_map_iff in Hx as (s & <- & _).
    apply extraction_events_requests. }
  exists search, pages. rewrite !requests_app, Hloop_req, Hreq. simpl.
  rewrite app_nil_r.
  split; [exact Hurl|]. split; [exact Hpages|]. split; [reflexivity|].
  split.
  - constructor. apply fmap_Permutation, completion_order_perm.
  - rewrite length_fmap, (Permutation_length (completion_order_perm _)).
    unfold submitted. rewrite length_seqZ. reflexivity.
Qed.

Lemma scrape_requests_witness :
  exists d t,
    @scrape Sample.world Sample.ca = Ok (d, t)
    /\ head (requests t) = Some Sample.ca_search
    /\ length (requests t) = 3%nat.
Proof.
  assert (exists d t, @scrape Sample.world Sample.ca = Ok (d, t))
    as (d & t & Hs).
  { eexists _, _. vm_compute. reflexivity. }
  destruct (@scrape_requests Sample.world Sample.ca d t Hs)
    as (search & pages & Hurl & Hpages & Hhead & _ & Hlen).
  injection Hurl as <-.
  change (get_num_pages_to_scrape (Sample.parse Sample.ca_search) 0 = Ok pages)
    in Hpages.
  injection Hpages as <-.
  exists d, t. split; [exact Hs|]. split; [exact Hhead | exact Hlen].
Defined.

(** ** ListingExtractor *)

(** A group of the id pattern is a string of ASCII letters and digits. *)
Lemma id_regex_group s g len :
  id_regex s = Some (g, len) -> all_chars is_alnum g = true.
Proof.
  unfold id_regex.
  destruct (strip_prefix ("id=" +:+ String dquote "sj_") s) as [rest|];
    [|discriminate].
  destruct (span is_alnum rest) as [pre after] eqn:Hspan.
  destruct after as [|c after]; [discriminate|].
  destruct (Ascii.eqb c dquote); [|discriminate].
  intros [= <- _]. eapply span_all_chars, Hspan.
Qed.

Lemma get_id_IndexError (s : JobSoup) (e : exn) :
  get_id s = Raise e ->
  e = IndexError
  /\ findall id_regex (str_of_found (find_save_job_link s)) = [].
Proof.
  unfold get_id.
  destruct (findall id_regex (str_of_found (find_save_job_link s)));
    simpl; [intros [= <-]; auto | discriminate].
Qed.

Lemma get_id_alnum (s : JobSoup) (k : string) :
  get_id s = Ok k -> all_chars is_alnum k = true.
Proof.
  unfold get_id.
  destruct (findall id_regex (str_of_found (find_save_job_link s)))
    as [|g gs] eqn:Hall; simpl; [discriminate|].
  intros [= <-].
  eapply (findall_from_groups id_regex
            (fun g => all_chars is_alnum g = true)).
  - apply id_regex_group.
  - unfold findall in Hall. rewrite Hall. left.
Qed.

(** X9. An id that [get_id] returns consists of ASCII letters and digits
    only (it may be empty), and [get_id] raises nothing but [IndexError],
    which it does exactly when the markup of the save-job link holds no
    match of the id pattern. *)
Theorem get_id_alnum_or_IndexError (s : JobSoup) :
  (forall k, get_id s = Ok k -> all_chars is_alnum k = true)
  /\ (forall e, get_id s = Raise e ->
        e = IndexError
        /\ findall id_regex (str_of_found (find_save_job_link s)) = []).
Proof. split; [apply get_id_alnum | apply get_id_IndexError]. Qed.

Lemma get_id_alnum_or_IndexError_witness :
  get_id Sample.engineer = Ok "abc123"
  /\ all_chars is_alnum "abc123" = true
  /\ get_id Sample.no_id = Raise IndexError
  /\ findall id_regex (str_of_found (find_save_job_link Sample.no_id)) = [].
Proof.
  destruct (get_id_alnum_or_IndexError Sample.engineer) as [Hok _].
  destruct (get_id_alnum_or_IndexError Sample.no_id) as [_ Hraise].
  split; [reflexivity|]. split; [apply Hok; reflexivity|].
  split; [reflexivity|]. apply (Hraise IndexError). reflexivity.
Defined.

(** X10. The body of the loop raises on a fragment in exactly two cases:
    the fragment has a title, a company and a location but no id, and the
    exception is the [IndexError] of [get_id]; or the required stage
    succeeded and the date fix-up, on the date text read off this fragment
    (or on no date when there is none), raised an exception other than
    [ValueError], which is passed on. *)
Theorem extract_job_raises `{World} (self : Scraper) (s : JobSoup)
    (e : exn) :
  extract_job self s = Raise e <->
  (e = IndexError
   /\ is_Some (find_jobTitle s) /\ is_Some (find_company s)
   /\ is_Some (find_location s)
   /\ findall id_regex (str_of_found (find_save_job_link s)) = [])
  \/ (e <> ValueError
      /\ (exists r, required_info self s = Ok r)
      /\ relative_date
           match get_date s with
           | Ok text => RelativeDate text
           | Raise _ => NoDate
           end = Raise e).
Proof.
  split.
  - unfold extract_job.
    destruct (required_info self s) as [[[[[title company] location] k] u]|e']
      eqn:Hreq.
    + intros Hraise. right. unfold bind in Hraise.
      rewrite scrape_tags_total in Hraise. unfold get_date.
      destruct (find_jobCardShelf s); cbv beta iota in Hraise;
        rewrite scrape_post_date_total in Hraise;
        destruct (find_date s); cbv beta iota in Hraise;
        rewrite fix_post_date_cases in Hraise;
        cbn [post_date new_job] in Hraise; cbn [attr_of_found rbind];
        match type of Hraise with
        | context [relative_date ?pd] =>
            destruct (relative_date pd) as [d|e''] eqn:Hdate;
            [discriminate|];
            destruct e''; try discriminate; injection Hraise as <-;
            (split; [discriminate|]; split; [eauto|]; reflexivity)
        end.
    + intros Hraise. left.
      assert (e' = e /\ e <> AttributeError) as [-> Hne].
      { destruct e'; try discriminate; injection Hraise as <-;
          (split; [reflexivity | discriminate]). }
      unfold required_info, get_title, get_company, get_location in Hreq.
      destruct (find_jobTitle s); [|simpl in Hreq; congruence].
      destruct (find_company s); [|simpl in Hreq; congruence].
      destruct (find_location s); [|simpl in Hreq; congruence].
      simpl in Hreq.
      destruct (get_id s) as [k|e'] eqn:Hid; simpl in Hreq; [discriminate|].
      injection Hreq as ->.
      destruct (get_id_IndexError s e Hid) as [-> Hall]. eauto 6.
  - intros [(-> & Ht & Hc & Hl & Hall)|(Hne & [r Hreq] & Hdate)].
    + apply (missing_id_raises self s Ht Hc Hl Hall).
    + destruct r as [[[[title company] location] k] u].
      rewrite (extract_job_optional_stage self s _ _ _ _ _ Hreq).
      rewrite fix_post_date_cases. cbn [post_date new_job].
      rewrite Hdate. destruct e; congruence.
Qed.

Lemma extract_job_raises_witness :
  @extract_job Sample.world Sample.ca Sample.no_date = Raise TypeError
  /\ TypeError <> ValueError
  /\ (exists r, @required_info Sample.world Sample.ca Sample.no_date = Ok r)
  /\ get_date Sample.no_date = Raise AttributeError
  /\ @relative_date Sample.world NoDate = Raise TypeError
  /\ @extract_job Sample.world Sample.ca Sample.no_id = Raise IndexError.
Proof.
  assert (@extract_job Sample.world Sample.ca Sample.no_date = Raise TypeError)
    as Hraise by reflexivity.
  destruct (proj1 (@extract_job_raises Sample.world Sample.ca Sample.no_date
                     TypeError) Hraise) as [[Hbad _]|(Hne & Hreq & Hpd)];
    [discriminate|].
  split; [exact Hraise|]. split; [exact Hne|]. split; [exact Hreq|].
  split; [reflexivity|]. split; [exact Hpd|].
  apply (proj2 (@extract_job_raises Sample.world Sample.ca Sample.no_id
                  IndexError)).
  left. split; [reflexivity|].
  split; [eexists; reflexivity|]. split; [eexists; reflexivity|].
  split; [eexists; reflexivity | reflexivity].
Defined.

(** X11. The link of a job determines its id: [get_link] sends different
    ids to different URLs. *)
Theorem get_link_injective `{World} (self : Scraper) (id1 id2 : string) :
  id1 <> id2 -> get_link self id1 <> get_link self id2.
Proof.
  unfold get_link. intros Hne Heq.
  do 3 apply (inj (String.app _)) in Heq. contradiction.
Qed.

Lemma get_link_injective_witness :
  "k2" <> "k4"
  /\ @get_link Sample.world Sample.ca "k2" <> @get_link Sample.world Sample.ca "k4".
Proof.
  split; [discriminate|].
  apply (@get_link_injective Sample.world Sample.ca "k2" "k4"). discriminate.
Defined.

(** ** Aggregator *)

Section AggregateFacts.
Context `{World}.
Variable self : Scraper.

(** A job in the result was made from one of the fragments processed. *)
Lemma scrape_soups_entry soups (d : gmap string Job) t k job :
  scrape_soups self soups ∅ = Ok (d, t) ->
  d !! k = Some job ->
  key_id job = k /\ exists s, s ∈ soups /\ derived self s = Some job.
Proof.
  intros Hloop Hk.
  rewrite (scrape_soups_lookup self soups _ _ _ Hloop k), lookup_empty in Hk.
  destruct (last (derived_with_key self k soups)) as [job'|] eqn:Hlast;
    [|discriminate].
  injection Hk as ->.
  apply last_Some_elem_of in Hlast. unfold derived_with_key in Hlast.
  apply list_elem_of_filter in Hlast as [Hkey Hin].
  apply list_elem_of_omap in Hin as (s & Hs & Hd). eauto.
Qed.

Lemma scrape_soups_size soups : forall (d d' : gmap string Job) t,
  scrape_soups self soups d = Ok (d', t) ->
  (size d' <= size d + length soups)%nat.
Proof.
  induction soups as [|s rest IH]; intros d d' t Hloop.
  - injection Hloop as <- _. simpl. lia.
  - rewrite scrape_soups_cons in Hloop.
    apply bind_Ok in Hloop as (r & t1 & t2 & He & Hrest & _).
    apply IH in Hrest. simpl.
    assert (size (add_job d r) <= S (size d))%nat; [|lia].
    destruct r as [job|]; simpl; [|lia].
    rewrite map_size_insert. destruct (d !! key_id job); simpl; lia.
Qed.

End AggregateFacts.

(** X12. Every job in the result of a pass is stored under its own
    [key_id], has the link made from that id as its [url], carries the
    title, company, location and id that the extractors read off its own
    raw fragment, and has no short description yet; its key consists of
    ASCII letters and digits. *)
Theorem scrape_entry_consistent `{World} (self : Scraper)
    (d : gmap string Job) (t : list event) (k : string) (job : Job) :
  scrape self = Ok (d, t) ->
  d !! k = Some job ->
  key_id job = k
  /\ url job = get_link self k
  /\ get_title (raw job) = Ok (title job)
  /\ get_company (raw job) = Ok (company job)
  /\ get_location (raw job) = Ok (location job)
  /\ get_id (raw job) = Ok k
  /\ all_chars is_alnum k = true
  /\ short_description job = None.
Proof.
  intros Hs Hk.
  apply scrape_Ok in Hs as (soups & t0 & t1 & _ & Hloop & _).
  destruct (scrape_soups_entry self soups d t1 k job Hloop Hk)
    as (Hkey & s & _ & Hd).
  unfold derived in Hd.
  destruct (extract_job self s) as [[r t']|e] eqn:He; [|discriminate].
  subst r. apply extract_job_Some in He
    as (ti & co & lo & k' & u & tags & pd & Hreq & ->).
  simpl in Hkey. subst k'.
  apply required_info_Ok in Hreq as (Ht & Hc & Hl & Hid & ->).
  simpl. repeat split; try assumption.
  eapply get_id_alnum, Hid.
Qed.

Lemma scrape_entry_consistent_witness :
  exists d t job,
    @scrape Sample.world Sample.ca = Ok (d, t)
    /\ d !! "abc123" = Some job
    /\ key_id job = "abc123"
    /\ url job = "http://www.indeed.ca/viewjob?jk=abc123"
    /\ title job = "Data Engineer".
Proof.
  assert (exists d t job,
            @scrape Sample.world Sample.ca = Ok (d, t)
            /\ d !! "abc123" = Some job) as (d & t & job & Hs & Hk).
  { eexists _, _, _. split; vm_compute; reflexivity. }
  destruct (@scrape_entry_consistent Sample.world Sample.ca d t "abc123" job
              Hs Hk) as (Hkey & Hurl & Htitle & _).
  exists d, t, job. split; [exact Hs|]. split; [exact Hk|].
  split; [exact Hkey|]. split; [exact Hurl|].
  vm_compute in Hs. injection Hs as <- _.
  vm_compute in Hk. injection Hk as <-. reflexivity.
Defined.

(** X13. The keys of the result of a pass are exactly the ids of the
    fragments from which the loop made a job, so the result never holds
    more jobs than there were fragments. *)
Theorem scrape_keys `{World} (self : Scraper) (soups : list JobSoup)
    (t0 : list event) (d : gmap string Job) (t : list event) :
  scrape_job_soups self = Ok (soups, t0) ->
  scrape self = Ok (d, t) ->
  (forall k, is_Some (d !! k) <->
     exists s job, s ∈ soups /\ derived self s = Some job /\ key_id job = k)
  /\ (size d <= length soups)%nat.
Proof.
  intros Hfetch Hs.
  apply scrape_Ok in Hs as (soups' & t0' & t1 & Hfetch' & Hloop & _).
  rewrite Hfetch in Hfetch'. injection Hfetch' as <- <-.
  split.
  - intros k. split.
    + intros [job Hk].
      destruct (scrape_soups_entry self soups d t1 k job Hloop Hk)
        as (Hkey & s & Hin & Hd). eauto.
    + intros (s & job & Hin & Hd & Hkey).
      rewrite (scrape_soups_lookup self soups _ _ _ Hloop k), lookup_empty.
      assert (job ∈ derived_with_key self k soups) as Hjob.
      { unfold derived_with_key. apply list_elem_of_filter.
        split; [exact Hkey|]. apply list_elem_of_omap. eauto. }
      destruct (last (derived_with_key self k soups)) as [job'|] eqn:Hlast;
        [eauto|].
      apply last_None in Hlast. rewrite Hlast in Hjob. inversion Hjob.
  - pose proof (scrape_soups_size self soups _ _ _ Hloop) as Hsize.
    rewrite map_size_empty in Hsize. exact Hsize.
Qed.

Lemma scrape_keys_witness :
  exists soups t0 d t,
    @scrape_job_soups Sample.world Sample.usa = Ok (soups, t0)
    /\ @scrape Sample.world Sample.usa = Ok (d, t)
    /\ length soups = 3%nat
    /\ (size d <= 3)%nat
    /\ size d = 2%nat.
Proof.
  assert (exists soups t0 d t,
            @scrape_job_soups Sample.world Sample.usa = Ok (soups, t0)
            /\ @scrape Sample.world Sample.usa = Ok (d, t)
            /\ length soups = 3%nat /\ size d = 2%nat)
    as (soups & t0 & d & t & Hfetch & Hs & Hlen & Hsize).
  { eexists _, _, _, _. repeat split; vm_compute; reflexivity. }
  destruct (@scrape_keys Sample.world Sample.usa soups t0 d t Hfetch Hs)
    as [_ Hle].
  exists soups, t0, d, t. rewrite Hlen in Hle. auto 6.
Defined.

Lemma filter_key_NoDup (k : string) (l : list Job) :
  NoDup (key_id <$> l) ->
  filter (fun job => key_id job = k) l = []
  \/ exists job, filter (fun job => key_id job = k) l = [job].
Proof.
  induction l as [|x l IH]; intros Hnd; [left; reflexivity|].
  rewrite fmap_cons in Hnd. apply NoDup_cons in Hnd as [Hx Hnd].
  destruct (decide (key_id x = k)) as [Hk|Hk].
  - right. exists x. rewrite filter_cons_True by exact Hk. f_equal.
    destruct (filter (fun job => key_id job = k) l) as [|y ys] eqn:Hf;
      [reflexivity|].
    exfalso. apply Hx.
    assert (y ∈ filter (fun job => key_id job = k) l) as Hy
      by (rewrite Hf; left).
    apply list_elem_of_filter in Hy as [Hyk Hy].
    rewrite Hk, <- Hyk. apply list_elem_of_fmap_2, Hy.
  - rewrite filter_cons_False by exact Hk. apply IH, Hnd.
Qed.

Lemma concat_map_Permutation {A B : Type} (f : A -> list B) (l1 l2 : list A) :
  l1 ≡ₚ l2 -> concat (map f l1) ≡ₚ concat (map f l2).
Proof.
  induction 1 as [|x l1 l2 _ IH|x y l|l1 l2 l3 _ IH1 _ IH2]; simpl.
  - reflexivity.
  - rewrite IH. reflexivity.
  - rewrite !app_assoc. apply Permutation_app_tail, Permutation_app_comm.
  - etransitivity; eassumption.
Qed.

(** X14. When the fragments yield jobs with pairwise different ids, the
    order in which the loop processes them does not matter: processing
    any permutation of the fragments returns as well, with the same
    mapping and the same events up to their order. *)
Theorem scrape_soups_order_irrelevant `{World} (self : Scraper)
    (soups1 soups2 : list JobSoup) (d : gmap string Job) (t1 : list event) :
  soups1 ≡ₚ soups2 ->
  NoDup (key_id <$> omap (derived self) soups1) ->
  scrape_soups self soups1 ∅ = Ok (d, t1) ->
  exists t2, scrape_soups self soups2 ∅ = Ok (d, t2) /\ t2 ≡ₚ t1.
Proof.
  intros Hperm Hnd Hloop1.
  destruct (scrape_soups_returns self soups2 ∅) as (d2 & t2 & Hloop2).
  { intros s Hs. rewrite <- Hperm in Hs.
    eapply scrape_soups_extract; eassumption. }
  exists t2. split.
  - rewrite Hloop2. do 2 f_equal. apply map_eq. intros k.
    rewrite (scrape_soups_lookup self soups2 _ _ _ Hloop2 k).
    rewrite (scrape_soups_lookup self soups1 _ _ _ Hloop1 k).
    assert (derived_with_key self k soups1 ≡ₚ derived_with_key self k soups2)
      as Hk.
    { unfold derived_with_key. rewrite Hperm. reflexivity. }
    destruct (filter_key_NoDup k _ Hnd) as [Hnil|[job Hone]];
      fold (derived_with_key self k soups1) in *.
    + rewrite Hnil in Hk. apply Permutation_nil_l in Hk.
      rewrite Hnil, <- Hk. reflexivity.
    + rewrite Hone in Hk. apply Permutation_singleton_l in Hk.
      rewrite Hone, <- Hk. reflexivity.
  - rewrite (scrape_soups_events self soups2 _ _ _ Hloop2).
    rewrite (scrape_soups_events self soups1 _ _ _ Hloop1).
    apply concat_map_Permutation. symmetry. exact Hperm.
Qed.

Lemma scrape_soups_order_irrelevant_witness :
  [Sample.engineer; Sample.analyst; Sample.odd_date]
    ≡ₚ [Sample.odd_date; Sample.engineer; Sample.analyst]
  /\ exists d t1 t2,
       @scrape_soups Sample.world Sample.ca
         [Sample.engineer; Sample.analyst; Sample.odd_date] ∅ = Ok (d, t1)
       /\ @scrape_soups Sample.world Sample.ca
            [Sample.odd_date; Sample.engineer; Sample.analyst] ∅ = Ok (d, t2)
       /\ size d = 3%nat.
Proof.
  assert ([Sample.engineer; Sample.analyst; Sample.odd_date]
            ≡ₚ [Sample.odd_date; Sample.engineer; Sample.analyst]) as Hperm.
  { symmetry.
    exact (Permutation_cons_append [Sample.engineer; Sample.analyst]
             Sample.odd_date). }
  assert (exists d t1,
            @scrape_soups Sample.world Sample.ca
              [Sample.engineer; Sample.analyst; Sample.odd_date] ∅ = Ok (d, t1)
            /\ size d = 3%nat) as (d & t1 & Hloop & Hsize).
  { eexists _, _. split; vm_compute; reflexivity. }
  assert (NoDup (key_id <$> omap (@derived Sample.world Sample.ca)
                   [Sample.engineer; Sample.analyst; Sample.odd_date])) as Hnd.
  { apply (bool_decide_unpack _). vm_compute. exact I. }
  destruct (@scrape_soups_order_irrelevant Sample.world Sample.ca _ _ d t1
              Hperm Hnd Hloop) as (t2 & Hloop2 & _).
  split; [exact Hperm|]. exists d, t1, t2. auto.
Defined.

(** The loop body logs the error of a dropped fragment once when it makes
    no job, and never when it makes one. *)
Lemma extract_job_dropped_event `{World} (self : Scraper) (s : JobSoup) r t :
  extract_job self s = Ok (r, t) ->
  length (filter (fun ev => ev = dropped_event) t)
  = match r with None => 1%nat | Some _ => 0%nat end.
Proof.
  unfold extract_job.
  destruct (required_info self s) as [[[[[title company] location] k] u]|[]];
    try discriminate.
  - unfold bind. rewrite scrape_tags_total.
    destruct (find_jobCardShelf s); cbv beta iota;
      rewrite scrape_post_date_total;
      destruct (find_date s); cbv beta iota;
      rewrite fix_post_date_cases;
      match goal with
      | |- context [relative_date ?pd] =>
          destruct (relative_date pd) as [d|[]]; try discriminate;
          intros [= <- <-]; reflexivity
      end.
  - intros [= <- <-]. reflexivity.
Qed.

(** X15. Every fragment the loop processes either yields a job or is
    reported: when the loop returns, the number of fragments is the number
    of jobs made plus the number of minimum-required-info errors logged. *)
Theorem scrape_soups_dropped_logged `{World} (self : Scraper)
    (soups : list JobSoup) (d0 d : gmap string Job) (t : list event) :
  scrape_soups self soups d0 = Ok (d, t) ->
  length soups
  = (length (omap (derived self) soups)
     + length (filter (fun ev => ev = dropped_event) t))%nat.
Proof.
  revert d0 d t. induction soups as [|s rest IH]; intros d0 d t Hloop.
  - injection Hloop as _ <-. reflexivity.
  - rewrite scrape_soups_cons in Hloop.
    apply bind_Ok in Hloop as (r & t1 & t2 & He & Hrest & ->).
    apply IH in Hrest.
    pose proof (extract_job_dropped_event self s r t1 He) as Hdrop.
    rewrite filter_app, length_app, Hdrop.
    change (omap (derived self) (s :: rest))
      with (match derived self s with
            | Some job => job :: omap (derived self) rest
            | None => omap (derived self) rest
            end).
    unfold derived at 1. rewrite He.
    destruct r as [job|]; cbn [length]; lia.
Qed.

Lemma scrape_soups_dropped_logged_witness :
  exists d t,
    @scrape_soups Sample.world Sample.ca
      [Sample.no_title; Sample.engineer; Sample.no_company; Sample.odd_date] ∅
    = Ok (d, t)
    /\ length (omap (@derived Sample.world Sample.ca)
                 [Sample.no_title; Sample.engineer; Sample.no_company;
                  Sample.odd_date]) = 2%nat
    /\ length (filter (fun ev => ev = dropped_event) t) = 2%nat.
Proof.
  assert (exists d t,
            @scrape_soups Sample.world Sample.ca
              [Sample.no_title; Sample.engineer; Sample.no_company;
               Sample.odd_date] ∅ = Ok (d, t)) as (d & t & Hloop).
  { eexists _, _. vm_compute. reflexivity. }
  pose proof (@scrape_soups_dropped_logged Sample.world Sample.ca _ _ _ _
                Hloop) as Hcount.
  assert (length (omap (@derived Sample.world Sample.ca)
                    [Sample.no_title; Sample.engineer; Sample.no_company;
                     Sample.odd_date]) = 2%nat) as Hjobs
    by (vm_compute; reflexivity).
  exists d, t. split; [exact Hloop|]. split; [exact Hjobs|].
  rewrite Hjobs in Hcount. simpl in Hcount. lia.
Defined.

(** ** PageLocator: reading a count back *)

Lemma string_app_assoc (s1 s2 s3 : string) :
  (s1 +:+ s2) +:+ s3 = s1 +:+ (s2 +:+ s3).
Proof.
  induction s1 as [|c s1 IH]; [reflexivity|].
  change (String c ((s1 +:+ s2) +:+ s3) = String c (s1 +:+ (s2 +:+ s3))).
  rewrite IH. reflexivity.
Qed.

Lemma replace_char_app old new s1 s2 :
  replace_char old new (s1 +:+ s2)
  = replace_char old new s1 +:+ replace_char old new s2.
Proof.
  induction s1 as [|c s1 IH]; [reflexivity|].
  change (replace_char old new (String c (s1 +:+ s2))
          = replace_char old new (String c s1) +:+ replace_char old new s2).
  simpl. rewrite IH. destruct (Ascii.eqb c old); [|reflexivity].
  symmetry. apply string_app_assoc.
Qed.

Lemma span_digits_then_space s rest :
  all_chars is_digit s = true ->
  span is_digit (s +:+ String " " rest) = (s, String " " rest).
Proof.
  induction s as [|c s IH]; [reflexivity|]. simpl.
  intros [Hc Hs]%andb_true_iff.
  change (span is_digit (String c (s +:+ String " " rest))
          = (String c s, String " " rest)).
  simpl. rewrite Hc, IH by assumption. reflexivity.
Qed.

Lemma pretty_N_char_digit (m : N) :
  (m < 10)%N ->
  is_digit (pretty_N_char m) = true
  /\ Z.of_nat (nat_of_ascii (pretty_N_char m) - 48) = Z.of_N m.
Proof.
  intros Hm.
  assert (m = 0 \/ m = 1 \/ m = 2 \/ m = 3 \/ m = 4 \/ m = 5 \/ m = 6
          \/ m = 7 \/ m = 8 \/ m = 9)%N as Hcases by lia.
  destruct Hcases as [->|[->|[->|[->|[->|[->|[->|[->|[->| ->]]]]]]]]];
    split; reflexivity.
Qed.

(** The decimal digits that [str] writes for a natural number are read
    back by [int], after any digits read before. *)
Lemma int_of_digits_pretty_N_go (x : N) : forall s,
  (all_chars is_digit s = true ->
   all_chars is_digit (pretty_N_go x s) = true)
  /\ exists k, 0 <= k /\ forall acc,
       int_of_digits acc (pretty_N_go x s)
       = int_of_digits (acc * 10 ^ k + Z.of_N x) s.
Proof.
  induction (N.lt_wf_0 x) as [x _ IH]; intros s.
  destruct (N.eq_dec x 0%N) as [->|Hx].
  { rewrite pretty_N_go_0. split; [auto|]. exists 0. split; [lia|].
    intros acc. f_equal. lia. }
  rewrite pretty_N_go_step by lia.
  assert (x `div` 10 < x)%N as Hlt by (apply N.div_lt; lia).
  destruct (IH _ Hlt (String (pretty_N_char (x `mod` 10)%N) s)) as [Hall IHk].
  destruct IHk as (k & Hk & Hint).
  assert (x `mod` 10 < 10)%N as Hmod by (apply N.mod_lt; lia).
  assert (is_digit (pretty_N_char (x `mod` 10)%N) = true
          /\ Z.of_nat (nat_of_ascii (pretty_N_char (x `mod` 10)%N) - 48)
             = Z.of_N (x `mod` 10)%N) as [Hd Hv].
  { apply pretty_N_char_digit, Hmod. }
  split.
  - intros Hs. apply Hall. simpl. rewrite Hd. exact Hs.
  - exists (k + 1). split; [lia|]. intros acc.
    rewrite Hint. simpl. rewrite Hd, Hv. f_equal.
    rewrite Z.pow_add_r, Z.pow_1_r by lia.
    rewrite (N.div_mod x 10%N) at 3 by lia.
    rewrite N2Z.inj_add, N2Z.inj_mul. change (Z.of_N 10) with 10. lia.
Qed.

Lemma pretty_N_go_nonempty (x : N) : forall s,
  s <> EmptyString -> pretty_N_go x s <> EmptyString.
Proof.
  induction (N.lt_wf_0 x) as [x _ IH]; intros s Hs.
  destruct (N.eq_dec x 0%N) as [->|Hx]; [rewrite pretty_N_go_0; exact Hs|].
  rewrite pretty_N_go_step by lia.
  apply IH; [apply N.div_lt; lia | discriminate].
Qed.

Lemma int_str_of_int (n : Z) :
  0 <= n ->
  all_chars is_digit (str_of_int n) = true
  /\ str_of_int n <> EmptyString
  /\ int_of_digits 0 (str_of_int n) = Ok n.
Proof.
  intros Hn. unfold str_of_int, pretty, pretty_Z.
  destruct n as [|p|p]; [split; [reflexivity|split; [intros [=]|reflexivity]]| |lia].
  unfold pretty, pretty_positive, pretty, pretty_N.
  rewrite decide_False by discriminate.
  destruct (int_of_digits_pretty_N_go (N.pos p) "") as [Hall (k & Hk & Hint)].
  assert (pretty_N_go (N.pos p) "" <> EmptyString) as Hne.
  { rewrite pretty_N_go_step by lia. apply pretty_N_go_nonempty.
    discriminate. }
  split; [apply Hall; reflexivity|]. split; [exact Hne|].
  rewrite Hint. simpl. reflexivity.
Qed.

(** [int] reads back what [str] wrote, up to the digit limit. *)
Lemma int_of_str (n : Z) :
  0 <= n ->
  (String.length (str_of_int n) <= int_max_str_digits)%nat ->
  int (str_of_int n) = Ok n.
Proof.
  intros Hn Hlen. destruct (int_str_of_int n Hn) as (_ & Hne & Hint).
  unfold int. destruct (str_of_int n) as [|a s]; [congruence|].
  destruct (Nat.ltb_spec int_max_str_digits (String.length (String a s)));
    [lia | exact Hint].
Qed.

Lemma replace_comma_not_f s :
  all_chars not_f s = true -> all_chars not_f (replace_char "," "" s) = true.
Proof.
  induction s as [|c s IH]; [reflexivity|]. simpl.
  intros [Hc Hs]%andb_true_iff.
  destruct (Ascii.eqb c ","); simpl; [auto|]. rewrite Hc. auto.
Qed.

(** No match of the result-count pattern starts before the first [f]. *)
Lemma findall_count_regex_skip pre s :
  all_chars not_f pre = true ->
  findall count_regex (pre +:+ s) = findall count_regex s.
Proof.
  unfold findall. induction pre as [|c pre IH]; [reflexivity|]. simpl.
  intros [Hc Hs]%andb_true_iff.
  change (findall_from count_regex 0 (String c (pre +:+ s))
          = findall_from count_regex 0 s).
  cbn [findall_from].
  assert (count_regex (String c (pre +:+ s)) = None) as ->.
  { unfold count_regex. cbn [strip_prefix].
    unfold not_f in Hc. apply negb_true_iff in Hc.
    rewrite Ascii.eqb_sym, Hc. reflexivity. }
  apply IH, Hs.
Qed.

Lemma findall_count_regex_here digits rest :
  all_chars is_digit digits = true -> digits <> EmptyString ->
  item0 (findall count_regex ("f " +:+ digits +:+ String " " rest))
  = Ok digits.
Proof.
  intros Hd Hne. unfold findall.
  change ("f " +:+ digits +:+ String " " rest)
    with (String "f" (String " " (digits +:+ String " " rest))).
  cbn [findall_from].
  assert (count_regex (String "f" (String " " (digits +:+ String " " rest)))
          = Some (digits, (3 + String.length digits)%nat)) as ->.
  { unfold count_regex. cbn [strip_prefix Ascii.eqb Bool.eqb].
    rewrite span_digits_then_space by exact Hd.
    destruct digits; [congruence | reflexivity]. }
  reflexivity.
Qed.

(** X16. The count on the first page is read back whatever its size up to
    the digit limit of [int] and whatever its thousands separators: when
    the stripped text of the count element has no [f] before the one that
    is followed by a space, the count and a space, and the count written
    without its commas is the decimal form of [n], of at most 4300 digits,
    then [result_count] returns [n]. *)
Theorem result_count_reads_count (soup_base : PageSoup)
    (first : string) (others : list string)
    (before count after : string) (n : Z) :
  find_searchCountPages soup_base = Some (first :: others) ->
  strip first = before +:+ "f " +:+ count +:+ String " " after ->
  all_chars not_f before = true ->
  replace_char "," "" count = str_of_int n ->
  0 <= n ->
  (String.length (str_of_int n) <= int_max_str_digits)%nat ->
  result_count soup_base = Ok n.
Proof.
  intros Hfind Hstrip Hbefore Hcount Hn Hlen.
  destruct (int_str_of_int n Hn) as (Hdigits & Hne & _).
  unfold result_count. rewrite Hfind. simpl. rewrite Hstrip.
  rewrite replace_char_app, (replace_char_app _ _ "f "),
    (replace_char_app _ _ count), Hcount.
  change (replace_char "," "" "f ") with "f ".
  change (replace_char "," "" (String " " after))
    with (String " " (replace_char "," "" after)).
  rewrite findall_count_regex_skip by (apply replace_comma_not_f, Hbefore).
  rewrite findall_count_regex_here by assumption.
  simpl. apply int_of_str; assumption.
Qed.

Lemma result_count_reads_count_witness :
  strip "  Page 3 of 1,234,567 jobs " = "Page 3 o" +:+ "f " +:+ "1,234,567" +:+ " jobs"
  /\ all_chars not_f "Page 3 o" = true
  /\ replace_char "," "" "1,234,567" = str_of_int 1234567
  /\ 0 <= 1234567
  /\ (String.length (str_of_int 1234567) <= int_max_str_digits)%nat
  /\ result_count (Sample.results_page "  Page 3 of 1,234,567 jobs " [])
     = Ok 1234567.
Proof.
  assert (String.length (str_of_int 1234567) <= int_max_str_digits)%nat
    as Hlen.
  { apply Nat.leb_le. vm_compute. reflexivity. }
  split; [reflexivity|]. split; [reflexivity|]. split; [reflexivity|].
  split; [lia|]. split; [exact Hlen|].
  apply (result_count_reads_count
           (Sample.results_page "  Page 3 of 1,234,567 jobs " [])
           "  Page 3 of 1,234,567 jobs " [] "Page 3 o" "1,234,567" "jobs"
           1234567);
    [reflexivity | reflexivity | reflexivity | reflexivity | lia | exact Hlen].
Defined.

(** ** Search URL *)

(** X17. The search URL depends on the radius only through its bucket, and
    each scraper class reads its own fields: the Canadian one the province
    and [radius], the American one the state and [region.radius]. Two
    search terms that agree on the keywords, the city, the similar-results
    flag, that region field and the bucket of that radius give the same
    URL (or the same exception). *)
Theorem get_search_url_radius_bucket `{World} (cls : ScraperClass)
    (st1 st2 : SearchTerms) (method : string) :
  keywords st1 = keywords st2 ->
  city st1 = city st2 ->
  return_similar_results st1 = return_similar_results st2 ->
  match cls with
  | IndeedScraperCAEng =>
      province st1 = province st2
      /\ convert_radius (radius st1) = convert_radius (radius st2)
  | IndeedScraperUSAEng =>
      state st1 = state st2
      /\ convert_radius (region_radius st1)
         = convert_radius (region_radius st2)
  end ->
  get_search_url (mkScraper cls st1) method
  = get_search_url (mkScraper cls st2) method.
Proof.
  intros Hk Hc Hs Hcls. unfold get_search_url, self_query, self_locale.
  cbn [search_terms scraper_class].
  destruct cls; destruct Hcls as [Hr Hb]; rewrite Hk, Hc, Hs, Hr, Hb;
    reflexivity.
Qed.

Lemma get_search_url_radius_bucket_witness :
  let near :=
    mkSearchTerms ["python"] "Guelph" "ON" "NY" 26 3 false in
  let far :=
    mkSearchTerms ["python"] "Guelph" "ON" "TX" 49 700 false in
  convert_radius 26 = convert_radius 49
  /\ @get_search_url Sample.world (mkScraper IndeedScraperCAEng near) "get"
     = @get_search_url Sample.world (mkScraper IndeedScraperCAEng far) "get"
  /\ @get_search_url Sample.world (mkScraper IndeedScraperCAEng near) "get"
     = Ok "https://www.indeed.ca/jobs?q=python&l=Guelph%2C+ON&radius=25&limit=50&filter=0".
Proof.
  intros near far. split; [reflexivity|]. split; [|reflexivity].
  apply (@get_search_url_radius_bucket Sample.world IndeedScraperCAEng
           near far "get"); try reflexivity.
  split; reflexivity.
Defined.
